(** * go-growatt: the inverter poll loop, the register decoder and the
      clock synchroniser, embedded from [inverter] and [main].

    Conventions of the embedding.
    - Go's fixed-width unsigned integers are [Z] values; every operation
      that can leave the range writes its wrap-around out ([uint16],
      [uint32], [shl32], [mul32]).  Go's [int] is 32 bits wide on the
      [arm] build and 64 bits wide on the [amd64] build of the Makefile,
      so the loop takes the architecture as an argument.
    - A Go [error] is the pair of its dynamic type and of the text that
      its [Error()] method returns.
    - Calls that leave the process (the modbus client, the MQTT client,
      [slog], [time.Sleep], the channel) are recorded as [Effect]s in a
      trace, each next to the value the variables of the running
      function had when the call was made; what the outside world
      answers is an input of the model.
    - [float64] seconds are exact rationals, see [Seconds]. *)

From Stdlib Require Import ZArith QArith Qabs Qround Lia PrimFloat Uint63.
From stdpp Require Import base option list strings gmap.

Close Scope Q_scope.
Open Scope Z_scope.

(** ** Machine integers *)

Inductive Arch := arm | amd64.

Definition intBits (a : Arch) : Z :=
  match a with arm => 32 | amd64 => 64 end.

(** Two's complement wrap-around of Go's [int]. *)
Definition wrapInt (a : Arch) (z : Z) : Z :=
  (z + 2 ^ (intBits a - 1)) mod 2 ^ intBits a - 2 ^ (intBits a - 1).

Definition uint16 (z : Z) : Z := z mod 2 ^ 16.
Definition uint32 (z : Z) : Z := z mod 2 ^ 32.

(** [x << n], [x | y], [x * y] and [x / y] on [uint32]. *)
Definition shl32 (x n : Z) : Z := uint32 (Z.shiftl x n).
Definition or32 (x y : Z) : Z := Z.lor x y.
Definition mul32 (x y : Z) : Z := uint32 (x * y).
Definition udiv (x y : Z) : Z := x / y.

Definition is_uint16 (z : Z) : Prop := 0 <= z < 2 ^ 16.

(** ** Errors *)

Record error := mkError { dynType : string; Error : string }.

(** [modbus.ErrRequestTimedOut], a constant of the client library. *)
Definition ErrRequestTimedOut : error :=
  mkError "modbus.Error" "request timed out".

(** [fmt.Errorf(prefix ++ "%v", err)]. *)
Definition Errorf (prefix : string) (err : error) : error :=
  mkError "*errors.errorString" (prefix +:+ Error err).

(** ** The state code table *)

Definition InverterStateCodes : gmap Z string :=
  <[0 := "waiting"]> (<[1 := "normal"]> (<[3 := "fault"]> ∅)).

(** [m[k]] on a Go map: the zero value of the element type on a miss. *)
Definition index (m : gmap Z string) (k : Z) : string :=
  default "" (m !! k).

(** ** Records *)

Module InverterState.
Record t := mk { State : string; Timestamp : string }.
End InverterState.

Record Stats := mkStats {
  Timestamp : string;
  State : string;
  PVInputPower : Z;
  PV1InputVolt : Z;
  PV1InputCurrent : Z;
  PV1InputWatt : Z;
  PV2InputVolt : Z;
  PV2InputCurrent : Z;
  PV2InputWatt : Z;
  ACWatt : Z;
  ACFrequency : Z;
  AC1Volt : Z;
  AC1Current : Z;
  AC1Watt : Z;
  AC2Volt : Z;
  AC2Current : Z;
  AC2Watt : Z;
  AC3Volt : Z;
  AC3Current : Z;
  AC3Watt : Z;
  TotalTodayWatt : Z;
  TotalAllTimeWatt : Z;
  TotalWorkTimeSecs : Z;
  Temperature : Z;
  FaultCode : Z
}.

(** ** Results of calls that can fail or panic *)

Inductive result (A : Type) :=
| Ok (a : A)
| Err (e : error)
| Panic.
Arguments Ok {A} a.
Arguments Err {A} e.
Arguments Panic {A}.

(** ** The telemetry decoder: the struct literal of [getStats]

    [data[i]] is a slice index: out of range it panics, which is [None]
    here.  The fields are evaluated in the order of the literal. *)
Definition decodeStats (now : string) (data : list Z) : option Stats :=
  d0 ← data !! 0%nat;
  d1 ← data !! 1%nat;
  d2 ← data !! 2%nat;
  d3 ← data !! 3%nat;
  d4 ← data !! 4%nat;
  d5 ← data !! 5%nat;
  d5' ← data !! 5%nat;
  d7 ← data !! 7%nat;
  d8 ← data !! 8%nat;
  d9 ← data !! 9%nat;
  d10 ← data !! 10%nat;
  d11 ← data !! 11%nat;
  d12 ← data !! 12%nat;
  d13 ← data !! 13%nat;
  d14 ← data !! 14%nat;
  d15 ← data !! 15%nat;
  d16 ← data !! 16%nat;
  d17 ← data !! 17%nat;
  d18 ← data !! 18%nat;
  d19 ← data !! 19%nat;
  d20 ← data !! 20%nat;
  d21 ← data !! 21%nat;
  d22 ← data !! 22%nat;
  d23 ← data !! 23%nat;
  d24 ← data !! 24%nat;
  d25 ← data !! 25%nat;
  d26 ← data !! 26%nat;
  d27 ← data !! 27%nat;
  d28 ← data !! 28%nat;
  d29 ← data !! 29%nat;
  d30 ← data !! 30%nat;
  d31 ← data !! 31%nat;
  d32 ← data !! 32%nat;
  d40 ← data !! 40%nat;
  Some {|
    Timestamp := now;
    State := index InverterStateCodes d0;
    PVInputPower := udiv (or32 (shl32 (uint32 d1) 16) (uint32 d2)) 10;
    PV1InputVolt := udiv d3 10;
    PV1InputCurrent := udiv d4 10;
    PV1InputWatt := udiv (or32 (shl32 (uint32 d5) 16) (uint32 d5')) 10;
    PV2InputVolt := udiv d7 10;
    PV2InputCurrent := udiv d8 10;
    PV2InputWatt := udiv (or32 (shl32 (uint32 d9) 16) (uint32 d10)) 10;
    ACWatt := udiv (or32 (shl32 (uint32 d11) 16) (uint32 d12)) 10;
    ACFrequency := udiv d13 100;
    AC1Volt := udiv d14 10;
    AC1Current := udiv d15 10;
    AC1Watt := udiv (or32 (shl32 (uint32 d16) 16) (uint32 d17)) 10;
    AC2Volt := udiv d18 10;
    AC2Current := udiv d19 10;
    AC2Watt := udiv (or32 (shl32 (uint32 d20) 16) (uint32 d21)) 10;
    AC3Volt := udiv d22 10;
    AC3Current := udiv d23 10;
    AC3Watt := udiv (or32 (shl32 (uint32 d24) 16) (uint32 d25)) 10;
    TotalTodayWatt := mul32 (or32 (shl32 (uint32 d26) 16) (uint32 d27)) 100;
    TotalAllTimeWatt := mul32 (or32 (shl32 (uint32 d28) 16) (uint32 d29)) 100;
    TotalWorkTimeSecs := udiv (or32 (shl32 (uint32 d30) 16) (uint32 d31)) 2;
    Temperature := udiv d32 10;
    FaultCode := d40
  |}.

(** [getStats]: [rd] is what [ReadRegisters(0, 41, INPUT_REGISTER)]
    answered, [now] the formatted [time.Now().UTC()]. *)
Definition getStats (now : string) (rd : list Z + error) : result Stats :=
  match rd with
  | inr err => Err err
  | inl data =>
      match decodeStats now data with
      | Some stats => Ok stats
      | None => Panic
      end
  end.

(** ** Time

    A [time.Time] is the instant it denotes, in nanoseconds since the
    Unix epoch, together with the calendar fields its accessors return
    in the local time zone.  How the two are related is the business of
    Go's [time] package and of the zone database. *)
Record Time := mkTime {
  Year : Z;
  Month : Z;
  Day : Z;
  Hour : Z;
  Minute : Z;
  Second : Z;
  instant : Z
}.

(** A [time.Duration] is a signed 64-bit count of nanoseconds. *)
Definition minDuration : Z := - 2 ^ 63.
Definition maxDuration : Z := 2 ^ 63 - 1.
Definition time_Second : Z := 1000000000.
Definition time_Minute : Z := 60 * time_Second.

(** [t.Sub(u)]: neither value carries a monotonic reading here (the
    result of [time.Date] has none), so the wall clocks are subtracted
    and the difference saturates. *)
Definition Sub (t u : Time) : Z :=
  let d := instant t - instant u in
  if d <? minDuration then minDuration
  else if maxDuration <? d then maxDuration
  else d.

(** [d.Seconds()] is [float64(d / Second) + float64(d % Second) / 1e9].
    The quotient and remainder truncate towards zero.  The [float64]
    value is the exact rational here: durations are whole nanoseconds,
    so two of them that lie on different sides of thirty seconds differ
    by at least 1e-9, far more than the rounding of a [float64] of that
    size; [exceedsFloat_threshold] evaluates the floating-point
    computation itself on both sides of the threshold. *)
Definition Seconds (d : Z) : Q :=
  (inject_Z (Z.quot d time_Second)
   + inject_Z (Z.rem d time_Second) / inject_Z 1000000000)%Q.

(** The same computation on [float64] itself, for checks at the
    threshold: [float64(z)] for an integer below 2^63 in magnitude, the
    seconds of a duration, and the test [math.Abs(...) > 30]. *)
Definition float64 (z : Z) : float :=
  if z <? 0 then PrimFloat.opp (PrimFloat.of_uint63 (Uint63.of_Z (- z)))
  else PrimFloat.of_uint63 (Uint63.of_Z z).

Definition SecondsFloat (d : Z) : float :=
  PrimFloat.add (float64 (Z.quot d time_Second))
    (PrimFloat.div (float64 (Z.rem d time_Second)) (float64 1000000000)).

Definition exceedsFloat (d : Z) : bool :=
  PrimFloat.ltb (float64 30) (PrimFloat.abs (SecondsFloat d)).

(** ** Effects and traces *)

Inductive Level := Debug | Info | Warn | LError.

(** A JSON text, as the value it was marshalled from. *)
Inductive Payload :=
| JState (v : InverterState.t)
| JStats (v : Stats).

(** The arguments of a [fmt.Sprintf] call, unformatted. *)
Inductive Arg :=
| AStr (s : string)
| AInt (z : Z)
| AErr (e : error)
| ATime (t : Time)
| AStats (s : Stats)
| AJson (p : Payload).

Inductive Effect :=
| ELog (lvl : Level) (format : string) (args : list Arg)
| EWriteRegister (addr value : Z)
| EClose
| ENewClient (url : string) (speed : Z)
| EOpen
| ESleep (d : Z)
| ESend (stats : Stats)
| EPublish (topic : string) (payload : Payload) (retain : bool).

(** A computation over variables of type [S]: it reads and updates
    them, and appends to the trace.  A trace entry is an effect paired
    with the variables as they were when the effect happened. *)
Definition M (S A : Type) : Type := S → list (S * Effect) * S * A.

Definition ret {S A} (a : A) : M S A := λ s, ([], s, a).

Definition bind {S A B} (m : M S A) (k : A → M S B) : M S B :=
  λ s,
    let '(t1, s1, a) := m s in
    let '(t2, s2, b) := k a s1 in
    (t1 ++ t2, s2, b).

Definition emit {S} (e : Effect) : M S unit := λ s, ([(s, e)], s, tt).
Definition get {S} : M S S := λ s, ([], s, s).
Definition put {S} (s' : S) : M S unit := λ _, ([], s', tt).

Notation "x <- m ;; k" := (bind m (fun x => k))
  (at level 20, m at level 99, k at level 200, only parsing).
Notation "m ;; k" := (bind m (fun _ => k))
  (at level 100, k at level 200, right associativity, only parsing).

Definition trace {S A} (r : list (S * Effect) * S * A) : list (S * Effect) :=
  r.1.1.
Definition final {S A} (r : list (S * Effect) * S * A) : S := r.1.2.
Definition value {S A} (r : list (S * Effect) * S * A) : A := r.2.

(** The effects of a trace, without the variables. *)
Definition effects {S} (t : list (S * Effect)) : list Effect := t.*2.

(** A block of statements that either returns from the enclosing
    function with an error value ([Some]) or falls through to the
    statements after it ([None]). *)
Definition Block (S : Type) : Type := M S (option (option error)).

Definition fallthrough {S} : Block S := ret None.
Definition return_ {S} (err : option error) : Block S := ret (Some err).

Definition seqBlock {S} (b k : Block S) : Block S :=
  r <- b ;;
  match r with
  | Some v => return_ v
  | None => k
  end.
Notation "b >>> k" := (seqBlock b k)
  (at level 65, right associativity, only parsing).

(** A function body whose last statement is [return nil]. *)
Definition body {S} (b : Block S) : M S (option error) :=
  r <- (b >>> return_ None) ;;
  ret (match r with Some v => v | None => None end).

(** ** The clock synchroniser *)

(** [client.WriteRegister(addr, value)]; [wr] is what the device answers. *)
Definition WriteRegister {S} (wr : Z → Z → option error) (addr value : Z)
  : M S (option error) :=
  emit (EWriteRegister addr value) ;;
  ret (wr addr value).

Definition setTime {S} (wr : Z → Z → option error)
    (inverterTime newTime : Time) : M S (option error) :=
  body (
    (if bool_decide (Second inverterTime ≠ Second newTime) then
       emit (ELog Info "Updating inverter time(seconds) from %d to %d"
               [AInt (Second inverterTime); AInt (Second newTime)]) ;;
       err <- WriteRegister wr 50 (uint16 (Second newTime)) ;;
       match err with
       | Some err => return_ (Some (Errorf "failed to update time(second): " err))
       | None => fallthrough
       end
     else fallthrough) >>>
    (if bool_decide (Minute inverterTime ≠ Minute newTime) then
       emit (ELog Info "Updating inverter time(minutes) from %d to %d"
               [AInt (Minute inverterTime); AInt (Minute newTime)]) ;;
       err <- WriteRegister wr 49 (uint16 (Minute newTime)) ;;
       match err with
       | Some err => return_ (Some (Errorf "failed to update time(minute): " err))
       | None => fallthrough
       end
     else fallthrough) >>>
    (if bool_decide (Hour inverterTime ≠ Hour newTime) then
       emit (ELog Info "Updating inverter time(hours) from %d to %d"
               [AInt (Hour inverterTime); AInt (Hour newTime)]) ;;
       err <- WriteRegister wr 48 (uint16 (Hour newTime)) ;;
       match err with
       | Some err => return_ (Some (Errorf "failed to update time(hour): " err))
       | None => fallthrough
       end
     else fallthrough) >>>
    (if bool_decide (Day inverterTime ≠ Day newTime) then
       emit (ELog Info "Updating inverter time(day) from %d to %d"
               [AInt (Day inverterTime); AInt (Day newTime)]) ;;
       err <- WriteRegister wr 47 (uint16 (Day newTime)) ;;
       match err with
       | Some err => return_ (Some (Errorf "failed to update time(day): " err))
       | None => fallthrough
       end
     else fallthrough) >>>
    (if bool_decide (Month inverterTime ≠ Month newTime) then
       emit (ELog Info "Updating inverter time(month) from %d to %d"
               [AInt (Month inverterTime); AInt (Month newTime)]) ;;
       err <- WriteRegister wr 46 (uint16 (Month newTime)) ;;
       match err with
       | Some err => return_ (Some (Errorf "failed to update time(month): " err))
       | None => fallthrough
       end
     else fallthrough) >>>
    (if bool_decide (Year inverterTime ≠ Year newTime) then
       emit (ELog Info "Updating inverter time(year) from %d to %d"
               [AInt (Year inverterTime); AInt (Year newTime)]) ;;
       err <- WriteRegister wr 45 (uint16 (Year newTime)) ;;
       match err with
       | Some err =>
           emit (ELog Warn
                   "failed to update time(year): %v. This is probably not supported via modbus :("
                   [AErr err]) ;;
           fallthrough
       | None => fallthrough
       end
     else fallthrough)).

(** ** The inverter and the variables of [Read] *)

Record Inverter := mkInverter { Address : string; BaudRate : Z }.

Record ReadVars := mkReadVars {
  lastInverterState : string;
  IsTimeoutError : bool;
  timeoutCnt : Z
}.

Definition setLastInverterState (v : ReadVars) (x : string) : ReadVars :=
  mkReadVars x (IsTimeoutError v) (timeoutCnt v).
Definition setIsTimeoutError (v : ReadVars) (x : bool) : ReadVars :=
  mkReadVars (lastInverterState v) x (timeoutCnt v).
Definition setTimeoutCnt (v : ReadVars) (x : Z) : ReadVars :=
  mkReadVars (lastInverterState v) (IsTimeoutError v) x.

(** What one iteration of the loop of [Read] meets: the case that the
    [select] picked, with the answers of the outside world to the calls
    of that iteration.
    - [StatsTick]: the formatted [time.Now().UTC()], the answer of
      [ReadRegisters(0, 41, INPUT_REGISTER)] and, for a reconnect, the
      answers of [Close], [modbus.NewClient] and [Open];
    - [CheckTimeTick]: the answer of [ReadRegisters(45, 6,
      HOLDING_REGISTER)], [time.Now().Local()] and the answers of
      [WriteRegister] per address and value;
    - [CtxDone]: [ctx.Err()] and the answer of [Close]. *)
Inductive Tick :=
| StatsTick (now : string) (rd : list Z + error)
    (closeAns newAns openAns : option error)
| CheckTimeTick (rd : list Z + error) (now : Time)
    (wr : Z → Z → option error)
| CtxDone (ctxErr : error) (closeAns : option error).

Inductive Next :=
| Continue
| Return (err : error)
| Crash.

Section Inverter.

(** [time.Date(year, month, day, hour, min, sec, nsec, time.Local)]:
    part of Go's standard library, taken as given. *)
Variable Date : Z → Z → Z → Z → Z → Z → Z → Time.

(** [GetTime]: [rd] is what [ReadRegisters(45, 6, HOLDING_REGISTER)]
    answered. *)
Definition GetTime {S} (rd : list Z + error) : M S (result Time) :=
  match rd with
  | inr err =>
      emit (ELog LError (Error err) []) ;;
      ret (Err err)
  | inl data =>
      match
        d0 ← data !! 0%nat;
        d1 ← data !! 1%nat;
        d2 ← data !! 2%nat;
        d3 ← data !! 3%nat;
        d4 ← data !! 4%nat;
        d5 ← data !! 5%nat;
        Some (Date d0 d1 d2 d3 d4 d5 0)
      with
      | None => ret Panic
      | Some t =>
          emit (ELog Debug "Current time on inverter is %v" [ATime t]) ;;
          ret (Ok t)
      end
  end.

(** [CheckSetTime]: [now] is [time.Now().Local()]. *)
Definition CheckSetTime {S} (rd : list Z + error) (now : Time)
    (wr : Z → Z → option error) : M S (result unit) :=
  r <- GetTime rd ;;
  match r with
  | Panic => ret Panic
  | Err err => ret (Err err)
  | Ok inverterTime =>
      let diffSecs := Qabs (Seconds (Sub now inverterTime)) in
      if negb (Qle_bool diffSecs (inject_Z 30)) then
        emit (ELog Info
                "Time difference(%d secs) on inverter(%s) exceeds threshold of 30 seconds. Updating to time(%s) now!"
                [AInt (Qfloor diffSecs); ATime inverterTime; ATime now]) ;;
        err <- setTime wr inverterTime now ;;
        match err with
        | Some err => ret (Err err)
        | None => ret (Ok tt)
        end
      else ret (Ok tt)
  end.

(** *** The poll loop *)

Variable a : Arch.
Variable i : Inverter.

(** [Connect]: [newAns] and [openAns] are what [modbus.NewClient] and
    [c.Open()] answer.  Which client the handle [i.client] points to
    is not modelled: what the device answers after a reconnect is an
    input of each tick. *)
Definition Connect {S} (newAns openAns : option error) : M S (option error) :=
  emit (ELog Info "Connecting to inverter" []) ;;
  emit (ENewClient ("rtu://" +:+ Address i) (BaudRate i mod 2 ^ intBits a)) ;;
  match newAns with
  | Some err =>
      emit (ELog LError "Failed to create client for inverter(%s): %v"
              [AStr (Address i); AErr err]) ;;
      ret (Some err)
  | None =>
      emit EOpen ;;
      match openAns with
      | Some err =>
          emit (ELog LError "Failed to connect to inverter(%s): %v"
                  [AStr (Address i); AErr err]) ;;
          ret (Some err)
      | None =>
          emit (ELog Info "Connected to inverter!" []) ;;
          ret None
      end
  end.

(** [Disconnect]: [closeAns] is what [client.Close()] answers. *)
Definition Disconnect {S} (closeAns : option error) : M S (option error) :=
  emit EClose ;;
  ret closeAns.

(** One iteration of the [for { select { ... } }] of [Read]. *)
Definition ReadIter (t : Tick) : M ReadVars Next :=
  match t with
  | StatsTick now rd closeAns newAns openAns =>
      match getStats now rd with
      | Panic => ret Crash
      | Err err =>
          (if bool_decide (Error err = "request timed out") then
             v <- get ;; put (setIsTimeoutError v true)
           else
             v <- get ;; put (setIsTimeoutError v false)) ;;
          v <- get ;;
          (if bool_decide (lastInverterState v = index InverterStateCodes 0)
              && IsTimeoutError v then
             emit (ELog Debug
                     "Last known inverter state is 'waiting' and got error: %v. Sleep for a minute and try again."
                     [AErr err]) ;;
             emit (ESleep (1 * time_Minute))
           else
             emit (ELog Warn "Got error while retrieving modbus registers: %v"
                     [AErr err]) ;;
             v <- get ;;
             if IsTimeoutError v then
               put (setTimeoutCnt v (wrapInt a (timeoutCnt v + 1))) ;;
               v <- get ;;
               if 10 <? timeoutCnt v then
                 emit (ELog Warn
                         "Got %d subsequent read timeouts. Reconnect to inverter."
                         [AInt (timeoutCnt v)]) ;;
                 Disconnect closeAns ;;
                 Connect newAns openAns ;;
                 ret tt
               else ret tt
             else ret tt) ;;
          ret Continue
      | Ok stats =>
          emit (ESend stats) ;;
          v <- get ;;
          put (setLastInverterState v (State stats)) ;;
          v <- get ;;
          put (setTimeoutCnt v 0) ;;
          ret Continue
      end
  | CheckTimeTick rd now wr =>
      r <- CheckSetTime rd now wr ;;
      match r with
      | Panic => ret Crash
      | Err err =>
          emit (ELog LError "CheckSetTime on inverter failed: %v" [AErr err]) ;;
          ret Continue
      | Ok _ => ret Continue
      end
  | CtxDone ctxErr closeAns =>
      emit (ELog Info "Context canceled, stop reading from inverter" []) ;;
      Disconnect closeAns ;;
      ret (Return ctxErr)
  end.

(** The loop over the ticks that the [select] picks, in their order.
    [None] when the list ends with the loop still running. *)
Fixpoint ReadLoop (ticks : list Tick) : M ReadVars (option (result error)) :=
  match ticks with
  | [] => ret None
  | t :: ticks =>
      n <- ReadIter t ;;
      match n with
      | Continue => ReadLoop ticks
      | Return err => ret (Some (Ok err))
      | Crash => ret (Some Panic)
      end
  end.

(** [Read]: the declarations before the loop, then the loop. *)
Definition Read (ticks : list Tick) : M ReadVars (option (result error)) :=
  put (mkReadVars (index InverterStateCodes 0) false 0) ;;
  emit (ELog Info "Start reading from inverter" []) ;;
  ReadLoop ticks.

End Inverter.

(** ** The consumer loop of [main] *)

(** [json.Marshal] on a struct of strings and unsigned integers: it has
    no failing case for these types. *)
Definition json_Marshal (v : Payload) : Payload + error := inl v.

(** [Mqtt.Publish]. *)
Definition Publish {S} (topic : string) (payload : Payload) (retain : bool)
  : M S unit :=
  emit (EPublish topic payload retain) ;;
  emit (ELog Debug "Published message to topic %q: %s" [AStr topic; AJson payload]).

(** What the [select] of [main] receives: a record from the channel,
    with the [time.Now()] of its handling, or a signal. *)
Inductive MainEvent :=
| Msg (msg : Stats) (now : string)
| Sig (sig : string).

Inductive MainNext := Go_on | Quit.

(** One iteration of the loop of [main]; the variable is
    [lastInverterState], [topic] is [cfg.Mqtt.Topic]. *)
Definition mainIter (topic : string) (ev : MainEvent) : M string MainNext :=
  match ev with
  | Msg msg now =>
      emit (ELog Debug "Received inverter stats: %v" [AStats msg]) ;;
      lastInverterState <- get ;;
      n <- (if bool_decide (lastInverterState ≠ State msg) then
              match json_Marshal
                      (JState (InverterState.mk (State msg) now)) with
              | inr err =>
                  emit (ELog LError
                          "Failed to convert InverterState struct to json: %v"
                          [AErr err]) ;;
                  ret Quit
              | inl jsonBytes =>
                  lastInverterState <- get ;;
                  emit (ELog Info "Change inverter state from %q to %q"
                          [AStr lastInverterState; AStr (State msg)]) ;;
                  Publish (topic +:+ "/state") jsonBytes true ;;
                  put (State msg) ;;
                  ret Go_on
              end
            else ret Go_on) ;;
      match n with
      | Quit => ret Quit
      | Go_on =>
          match json_Marshal (JStats msg) with
          | inr err =>
              emit (ELog LError
                      "Failed to convert inverter.Stats struct to json: %v"
                      [AErr err]) ;;
              ret Quit
          | inl jsonBytes =>
              Publish (topic +:+ "/data") jsonBytes true ;;
              ret Go_on
          end
      end
  | Sig sig =>
      emit (ELog Info "Stopping! Got signal %v" [AStr sig]) ;;
      ret Quit
  end.

Fixpoint mainLoop (topic : string) (evs : list MainEvent) : M string unit :=
  match evs with
  | [] => ret tt
  | ev :: evs =>
      n <- mainIter topic ev ;;
      match n with
      | Go_on => mainLoop topic evs
      | Quit => ret tt
      end
  end.

(** The loop of [main] from its initial [lastInverterState]. *)
Definition mainRun (topic : string) (evs : list MainEvent) :=
  mainLoop topic evs (index InverterStateCodes 0).

(** ** Reading traces *)

(** The register writes among some effects, in their order: address
    and value. *)
Definition writes (es : list Effect) : list (Z * Z) :=
  omap (λ e, match e with EWriteRegister addr v => Some (addr, v) | _ => None end) es.

Definition isInfo (e : Effect) : bool :=
  match e with ELog Info _ _ => true | _ => false end.

(** The effects of a trace other than the lines logged at level Info. *)
Definition core {S} (t : list (S * Effect)) : list Effect :=
  filter (λ e, isInfo e = false) (effects t).

(** The reconnects among some effects: a [client.Close()] that the
    first steps of [Connect] follow at once, namely its line at level
    Info and its call of [modbus.NewClient]. *)
Fixpoint reconnects (es : list Effect) : nat :=
  match es with
  | [] => 0
  | e :: tl =>
      match e, tl with
      | EClose, ELog Info _ _ :: ENewClient _ _ :: _ => S (reconnects tl)
      | _, _ => reconnects tl
      end
  end.

(** The pauses among some effects. *)
Definition sleeps (es : list Effect) : list Z :=
  omap (λ e, match e with ESleep d => Some d | _ => None end) es.

(** The state-change notices of a trace of [main]: what is published
    as an [InverterState], each with the [lastInverterState] stored at
    the time of the publication. *)
Definition notices (t : list (string * Effect)) : list (string * InverterState.t) :=
  omap (λ x, match x.2 with
             | EPublish _ (JState v) _ => Some (x.1, v)
             | _ => None
             end) t.

(** ** Vocabulary of the statements *)

(** Word [n] of a raw block. *)
Definition word (data : list Z) (n : nat) : Z := nth n data 0.

(** Two raw words as one number: [(hi << 16) | lo], not reduced. *)
Definition dword (data : list Z) (n : nat) : Z :=
  Z.lor (Z.shiftl (word data n) 16) (word data (S n)).

(** The clock registers in the order second, minute, hour, day, month,
    year, each with the accessor of its field. *)
Definition clockFields : list (Z * (Time → Z)) :=
  [(50, Second); (49, Minute); (48, Hour); (47, Day); (46, Month); (45, Year)].

(** The writes that are due: for each field whose device value differs
    from the host value, in the order of [clockFields], the register and
    the host value. *)
Definition due (inverterTime newTime : Time) : list (Z * Z) :=
  omap (λ f, if bool_decide (f.2 inverterTime ≠ f.2 newTime)
             then Some (f.1, uint16 (f.2 newTime)) else None) clockFields.

(** The text that [setTime] puts before the error of a failed write. *)
Definition failedToUpdate (addr : Z) : string :=
  if addr =? 50 then "failed to update time(second): "
  else if addr =? 49 then "failed to update time(minute): "
  else if addr =? 48 then "failed to update time(hour): "
  else if addr =? 47 then "failed to update time(day): "
  else "failed to update time(month): ".

(** The line that [setTime] logs when the write of the year fails. *)
Definition yearWarning (err : error) : Effect :=
  ELog Warn
    "failed to update time(year): %v. This is probably not supported via modbus :("
    [AErr err].

(** Writing a list of due writes back, stated on the list: a failed
    write of the year register 45 is logged and passed over, any other
    failed write ends the pass with its error. *)
Fixpoint writeBack (wr : Z → Z → option error) (l : list (Z * Z))
  : list Effect * option error :=
  match l with
  | [] => ([], None)
  | (addr, v) :: l =>
      match wr addr v with
      | Some err =>
          if addr =? 45 then
            let (w, r) := writeBack wr l in
            (EWriteRegister addr v :: yearWarning err :: w, r)
          else
            ([EWriteRegister addr v], Some (Errorf (failedToUpdate addr) err))
      | None =>
          let (w, r) := writeBack wr l in (EWriteRegister addr v :: w, r)
      end
  end.

Section Blocks.
Context {S : Type}.
Variable wr : Z → Z → option error.

(** The shape of the blocks of [setTime] for second, minute, hour,
    day and month. *)
Definition fieldBlock (d : bool) (fmt : string) (args : list Arg)
    (addr v : Z) : Block S :=
  if d then
    emit (ELog Info fmt args) ;;
    err <- WriteRegister wr addr v ;;
    match err with
    | Some err => return_ (Some (Errorf (failedToUpdate addr) err))
    | None => fallthrough
    end
  else fallthrough.

(** The shape of its block for the year. *)
Definition yearBlock (d : bool) (fmt : string) (args : list Arg)
    (addr v : Z) : Block S :=
  if d then
    emit (ELog Info fmt args) ;;
    err <- WriteRegister wr addr v ;;
    match err with
    | Some err => emit (yearWarning err) ;; fallthrough
    | None => fallthrough
    end
  else fallthrough.

Definition joinRes (r : option (option error)) : option error :=
  match r with Some v => v | None => None end.

(** A block does what [writeBack] says for a list of due writes. *)
Definition refines (b : Block S) (l : list (Z * Z)) : Prop :=
  ∀ s, core (trace (b s)) = (writeBack wr l).1 ∧
       joinRes (value (b s)) = (writeBack wr l).2 ∧
       final (b s) = s.
End Blocks.

(** A telemetry tick whose read fails with the text of a timeout. *)
Definition isTimeoutTick (t : Tick) : Prop :=
  match t with
  | StatsTick _ (inr err) _ _ _ => Error err = "request timed out"
  | _ => False
  end.

(** How many of [n] consecutive timeouts reconnect, the counter being
    [c] before the first of them. *)
Fixpoint reconnectsOf (c : Z) (n : nat) : nat :=
  match n with
  | O => 0
  | S n => (if 10 <? c + 1 then 1%nat else 0%nat) + reconnectsOf (c + 1) n
  end.

(** The events of [main] for a list of received records. *)
Definition received (msgs : list (Stats * string)) : list MainEvent :=
  map (λ m, Msg m.1 m.2) msgs.

(** The label of the last record of a list, [l0] for none. *)
Definition labelAfter (l0 : string) (msgs : list (Stats * string)) : string :=
  match last msgs with
  | Some m => State m.1
  | None => l0
  end.

(** The label decoded last before a record that follows [msgs], the
    label assumed at the start when [msgs] is empty. *)
Definition prevLabel (msgs : list (Stats * string)) : string :=
  labelAfter (index InverterStateCodes 0) msgs.

(** ** A calendar and sample inputs for the examples *)

(** Days since 1970-01-01 of a proleptic Gregorian date. *)
Definition daysFromCivil (y m d : Z) : Z :=
  let y' := if m <=? 2 then y - 1 else y in
  let era := y' / 400 in
  let yoe := y' - era * 400 in
  let doy := (153 * (if 2 <? m then m - 3 else m + 9) + 2) / 5 + d - 1 in
  let doe := yoe * 365 + yoe / 4 - yoe / 100 + doy in
  era * 146097 + doe - 719468.

(** [time.Date] for the zone UTC and fields within their ranges. *)
Definition utcDate (y mo d h mi s ns : Z) : Time :=
  mkTime y mo d h mi s
    ((((daysFromCivil y mo d * 24 + h) * 60 + mi) * 60 + s) * time_Second + ns).

(** The block of 41 words that are all zero. *)
Definition zeroBlock : list Z := replicate 41 0.

Definition sampleInverter : Inverter := mkInverter "/dev/ttyUSB0" 9600.

Definition timeoutTick : Tick :=
  StatsTick "2024-03-15 10:30:00" (inr ErrRequestTimedOut) None None None.

Definition normalVars : ReadVars := mkReadVars "normal" false 0.

(** The struct literal of [getStats] on a block all of whose indexed
    words exist. *)
Definition decoded (now : string) (data : list Z) : Stats :=
  let w := word data in
  let pair32 (h l : nat) := or32 (shl32 (uint32 (w h)) 16) (uint32 (w l)) in
  {|
    Timestamp := now;
    State := index InverterStateCodes (w 0%nat);
    PVInputPower := udiv (pair32 1 2)%nat 10;
    PV1InputVolt := udiv (w 3%nat) 10;
    PV1InputCurrent := udiv (w 4%nat) 10;
    PV1InputWatt := udiv (pair32 5 5)%nat 10;
    PV2InputVolt := udiv (w 7%nat) 10;
    PV2InputCurrent := udiv (w 8%nat) 10;
    PV2InputWatt := udiv (pair32 9 10)%nat 10;
    ACWatt := udiv (pair32 11 12)%nat 10;
    ACFrequency := udiv (w 13%nat) 100;
    AC1Volt := udiv (w 14%nat) 10;
    AC1Current := udiv (w 15%nat) 10;
    AC1Watt := udiv (pair32 16 17)%nat 10;
    AC2Volt := udiv (w 18%nat) 10;
    AC2Current := udiv (w 19%nat) 10;
    AC2Watt := udiv (pair32 20 21)%nat 10;
    AC3Volt := udiv (w 22%nat) 10;
    AC3Current := udiv (w 23%nat) 10;
    AC3Watt := udiv (pair32 24 25)%nat 10;
    TotalTodayWatt := mul32 (pair32 26 27)%nat 100;
    TotalAllTimeWatt := mul32 (pair32 28 29)%nat 100;
    TotalWorkTimeSecs := udiv (pair32 30 31)%nat 2;
    Temperature := udiv (w 32%nat) 10;
    FaultCode := w 40%nat
  |}.

(** Two records for the examples: state 'normal' with words 1 and 2 at
    (0, 1500), and state 'waiting'. *)
Definition normalStats : Stats :=
  decoded "2024-03-15 10:30:00" (<[2%nat := 1500]> (<[0%nat := 1]> zeroBlock)).

Definition waitingStats : Stats :=
  decoded "2024-03-15 10:30:02" zeroBlock.

(** The scalings of the single-word fields and of the runtime, the
    division truncating. *)
Definition scaledWords (data : list Z) (st : Stats) : Prop :=
  PV1InputVolt st = word data 3 ÷ 10 ∧
  PV1InputCurrent st = word data 4 ÷ 10 ∧
  PV2InputVolt st = word data 7 ÷ 10 ∧
  PV2InputCurrent st = word data 8 ÷ 10 ∧
  AC1Volt st = word data 14 ÷ 10 ∧
  AC1Current st = word data 15 ÷ 10 ∧
  AC2Volt st = word data 18 ÷ 10 ∧
  AC2Current st = word data 19 ÷ 10 ∧
  AC3Volt st = word data 22 ÷ 10 ∧
  AC3Current st = word data 23 ÷ 10 ∧
  ACFrequency st = word data 13 ÷ 100 ∧
  TotalWorkTimeSecs st = dword data 30 ÷ 2 ∧
  Temperature st = word data 32 ÷ 10 ∧
  FaultCode st = word data 40.

(** The energy totals as the product of the combined words by 100. *)
Definition totalsAsStated (data : list Z) (st : Stats) : Prop :=
  TotalTodayWatt st = dword data 26 * 100 ∧
  TotalAllTimeWatt st = dword data 28 * 100.

(** The energy totals as that product reduced to 32 bits. *)
Definition totalsWrapped (data : list Z) (st : Stats) : Prop :=
  TotalTodayWatt st = (dword data 26 * 100) mod 2 ^ 32 ∧
  TotalAllTimeWatt st = (dword data 28 * 100) mod 2 ^ 32.

(** The double-word power fields that combine their two words. *)
Definition powersOfTwoWords (data : list Z) (st : Stats) : Prop :=
  PVInputPower st = dword data 1 ÷ 10 ∧
  PV2InputWatt st = dword data 9 ÷ 10 ∧
  ACWatt st = dword data 11 ÷ 10 ∧
  AC1Watt st = dword data 16 ÷ 10 ∧
  AC2Watt st = dword data 20 ÷ 10 ∧
  AC3Watt st = dword data 24 ÷ 10.

(** ** Vocabulary of the further properties *)

(** Every numeric field of a record fits the Go type of the field:
    [uint16] or [uint32]. *)
Definition fitsTypes (st : Stats) : Prop :=
  Forall (λ x, 0 <= x < 2 ^ 16)
    [PV1InputVolt st; PV1InputCurrent st; PV2InputVolt st; PV2InputCurrent st;
     ACFrequency st; AC1Volt st; AC1Current st; AC2Volt st; AC2Current st;
     AC3Volt st; AC3Current st; Temperature st; FaultCode st] ∧
  Forall (λ x, 0 <= x < 2 ^ 32)
    [PVInputPower st; PV1InputWatt st; PV2InputWatt st; ACWatt st; AC1Watt st;
     AC2Watt st; AC3Watt st; TotalTodayWatt st; TotalAllTimeWatt st;
     TotalWorkTimeSecs st].

(** The labels that a record can carry. *)
Definition labels : list string := ["waiting"; "normal"; "fault"; ""].

(** The indices of a block that the struct literal of [getStats] never
    reads. *)
Definition unread (n : nat) : Prop := n = 6%nat ∨ (33 <= n <= 39)%nat ∨ (41 <= n)%nat.

(** A register file, the device as far as its clock goes, and the
    register file after some writes that the device accepted. *)
Definition applyWrites (ws : list (Z * Z)) (regs : gmap Z Z) : gmap Z Z :=
  foldl (λ r w, <[w.1 := w.2]> r) regs ws.

(** The clock registers of a register file hold the fields of [t]. *)
Definition shows (regs : gmap Z Z) (t : Time) : Prop :=
  Forall (λ f, regs !! f.1 = Some (f.2 t)) clockFields.

(** The clock fields of [t] are values of a 16-bit register. *)
Definition representable (t : Time) : Prop :=
  Forall (λ f, is_uint16 (f.2 t)) clockFields.

(** The clock registers as the device of the examples holds them at
    2024-03-15 10:30:00. *)
Definition sampleRegs : gmap Z Z :=
  {[ 45 := 2024; 46 := 3; 47 := 15; 48 := 10; 49 := 30; 50 := 0 ]}.

(** The effects that the clock synchroniser can have: log lines and
    register writes. *)
Definition isClock (e : Effect) : bool :=
  match e with
  | ELog _ _ _ | EWriteRegister _ _ => true
  | _ => false
  end.

(** A device that rejects the write of the year register 45 with
    [err] and accepts every other write. *)
Definition rejectsYear (err : error) (addr _v : Z) : option error :=
  if addr =? 45 then Some err else None.

(** The record that a tick hands to the channel, if any. *)
Definition okStats (t : Tick) : option Stats :=
  match t with
  | StatsTick now (inl data) _ _ _ => decodeStats now data
  | _ => None
  end.

Definition isCtxDone (t : Tick) : bool :=
  match t with CtxDone _ _ => true | _ => false end.

(** A telemetry tick whose read fails with another text than that of a
    timeout. *)
Definition isOtherErrorTick (t : Tick) : Prop :=
  match t with
  | StatsTick _ (inr err) _ _ _ => Error err ≠ "request timed out"
  | _ => False
  end.

(** The records sent on the channel among some effects. *)
Definition sentRecords (es : list Effect) : list Stats :=
  omap (λ e, match e with ESend st => Some st | _ => None end) es.

(** What a telemetry tick with a failed read can do, and with which
    counter it closes the transport. *)
Definition errorTickEffect (x : ReadVars * Effect) : Prop :=
  match x.2 with
  | ELog _ _ _ | ESleep _ | ENewClient _ _ | EOpen => True
  | EClose => 10 < timeoutCnt x.1
  | _ => False
  end.

(** A [client.Close()] happens with the counter above ten only. *)
Definition closesAboveTen (x : ReadVars * Effect) : Prop :=
  x.2 = EClose → 10 < timeoutCnt x.1.

(** For the examples: two ticks with a successful read, a tick whose
    read fails with the text of a checksum error, and the error of a
    cancelled context. *)
Definition normalTick : Tick :=
  StatsTick "2024-03-15 10:30:00"
    (inl (<[2%nat := 1500]> (<[0%nat := 1]> zeroBlock))) None None None.

Definition waitingTick : Tick :=
  StatsTick "2024-03-15 10:30:02" (inl zeroBlock) None None None.

Definition crcTick : Tick :=
  StatsTick "2024-03-15 10:30:04" (inr (mkError "modbus.Error" "bad crc"))
    None None None.

Definition canceled : error := mkError "*errors.errorString" "context canceled".

(** The records published on the data topic among some effects, each
    with its topic and its retain flag. *)
Definition dataPublished (es : list Effect) : list (string * Stats * bool) :=
  omap (λ e, match e with
             | EPublish topic (JStats v) retain => Some (topic, v, retain)
             | _ => None
             end) es.


(** ** The process: [readConfig], [logger.Setup], [Mqtt.Init], [main]

    The thread of [main] only: the goroutine that runs [Read] is an
    effect of [main], and what it does is the loop above. *)

(** The struct [config] of [main]. *)
Module Cfg.
Record inverter := mkInverter { Address : string; BaudRate : Z }.
Record mqtt := mkMqtt {
  User : string;
  Password : string;
  ClientID : string;
  BrokerURI : string;
  Topic : string
}.
Record t := mk { LogLevel : string; Inverter : inverter; Mqtt : mqtt }.
End Cfg.

(** The zero value [config{}]. *)
Definition config0 : Cfg.t :=
  Cfg.mk "" (Cfg.mkInverter "" 0) (Cfg.mkMqtt "" "" "" "" "").

(** The effects of the thread of [main]: those of the functions above
    and
    - [PFatal]: [log.Fatalf] or [log.Fatal], which print the line and
      call [os.Exit(1)]; [log.Fatal(err)] is recorded with the format
      %v;
    - [PReadFile], [PUnmarshal]: [os.ReadFile] and [yaml.Unmarshal];
    - [PSetDefault]: [slog.SetDefault] with a handler of that level;
    - [PNotify]: [signal.Notify] for the interrupt and SIGTERM;
    - [PMqttLoggers]: the assignments to the loggers of the MQTT
      library; [PMqttConnect], [PMqttDisconnect]: its [Connect] with
      the options set, and its [Disconnect];
    - [PGoRead]: the [go inv.Read(ctx, dataChan)] statement;
    - [PCancel]: the call of the cancel function of the context. *)
Inductive ProcEffect :=
| PEff (e : Effect)
| PFatal (format : string) (args : list Arg)
| PReadFile (path : string)
| PUnmarshal (data : string)
| PSetDefault (lvl : Z)
| PNotify
| PMqttLoggers
| PMqttConnect (broker user password clientID : string) (keepAlive : Z)
| PMqttDisconnect (quiesce : Z)
| PGoRead
| PCancel.

(** How the thread of [main] stands at the end of a trace: still in
    its loop, ended with an exit status, or ended by a panic (after
    the deferred calls). *)
Inductive Exit :=
| Running
| Exited (code : Z)
| Panicked.

(** What the outside world answers to [main]:
    - [osArgs]: [os.Args];
    - [readFile]: [os.ReadFile(configPath)];
    - [unmarshal]: the struct that [yaml.Unmarshal] fills, or its
      error;
    - [levelAns], [levelString]: the level that [UnmarshalText] parses,
      or its error, and the [String()] of that level;
    - [mqttConnect]: the error of the token of the MQTT [Connect];
    - [newAns], [openAns]: as for the loop of [Read];
    - [clockRd], [clockNow], [clockWr]: as for a clock-check tick;
    - [events]: what the [select] of [main] receives.
    What [Close] answers to the deferred [inv.Disconnect()] is not an
    answer that [main] looks at. *)
Record World := mkWorld {
  osArgs : list string;
  readFile : string + error;
  unmarshal : Cfg.t + error;
  levelAns : Z + error;
  levelString : string;
  mqttConnect : option error;
  newAns : option error;
  openAns : option error;
  clockRd : list Z + error;
  clockNow : Time;
  clockWr : Z → Z → option error;
  events : list MainEvent
}.

(** A step of the thread of [main]: its effects, and its value or the
    end of the process. *)
Definition P (A : Type) : Type := (list ProcEffect * (A + Exit))%type.

Definition pret {A} (a : A) : P A := ([], inl a).

Definition pbind {A B} (m : P A) (k : A → P B) : P B :=
  match m.2 with
  | inr x => (m.1, inr x)
  | inl a => (m.1 ++ (k a).1, (k a).2)
  end.

Definition pemit (e : ProcEffect) : P unit := ([e], inl tt).
Definition pend {A} (x : Exit) : P A := ([], inr x).

(** [log.Fatalf(format, args...)]. *)
Definition Fatalf {A} (format : string) (args : list Arg) : P A :=
  ([PFatal format args], inr (Exited 1)).

(** A call of one of the functions above, with variables [s]: its
    effects become effects of the thread. *)
Definition call {S A} (m : M S A) (s : S) : P (S * A) :=
  (map PEff (effects (trace (m s))), inl (final (m s), value (m s))).

Notation "x <~ m ;; k" := (pbind m (fun x => k))
  (at level 20, m at level 99, k at level 200, only parsing).
Notation "m ;;; k" := (pbind m (fun _ => k))
  (at level 100, k at level 200, right associativity, only parsing).

(** [readConfig]: the config and the error that it returns. *)
Definition readConfig (w : World) (configPath : string)
  : P (Cfg.t * option error) :=
  pemit (PReadFile configPath) ;;;
  match readFile w with
  | inr err => pret (config0, Some err)
  | inl data =>
      pemit (PUnmarshal data) ;;;
      match unmarshal w with
      | inr err => Fatalf "Error parsing YAML: %v" [AErr err]
      | inl cfg =>
          if bool_decide (Cfg.Topic (Cfg.Mqtt cfg) = "") then
            pret (cfg, Some (mkError "*errors.errorString"
                               "mqtt.topic is empty or absent"))
          else pret (cfg, None)
      end
  end.

Module logger.
(** [parseLevel]: the level and the error of [UnmarshalText]; the level
    stays at its zero value when the text does not parse. *)
Definition parseLevel (w : World) (level : string) : Z * option error :=
  match levelAns w with
  | inl lvl => (lvl, None)
  | inr err => (0, Some err)
  end.

Definition Setup (w : World) (logLevel : string) : P (option error) :=
  let (lvl, err) := parseLevel w logLevel in
  match err with
  | Some err => pret (Some err)
  | None =>
      pemit (PSetDefault lvl) ;;;
      pemit (PEff (ELog Info "Logger initialized with level %s"
                     [AStr (levelString w)])) ;;;
      pret None
  end.
End logger.

Module mqtt.
Record Mqtt := mk {
  User : string;
  Password : string;
  BrokerURI : string;
  ClientID : string
}.

(** [Init]; a token's [Wait()] returns true once the token is done. *)
Definition Init (w : World) (m : Mqtt) : P (option error) :=
  pemit PMqttLoggers ;;;
  pemit (PMqttConnect (BrokerURI m) (User m) (Password m) (ClientID m)
           (60 * time_Second)) ;;;
  match mqttConnect w with
  | Some err =>
      pemit (PEff (ELog LError (Error err) [])) ;;;
      pret (Some err)
  | None => pret None
  end.

Definition Disconnect : P unit := pemit (PMqttDisconnect 250).
End mqtt.

(** The [for { select { ... } }] of [main] over the events received:
    [true] when [main] returns, [false] when the events end with the
    loop still running. *)
Fixpoint mainFor (topic : string) (evs : list MainEvent) : M string bool :=
  match evs with
  | [] => ret false
  | ev :: evs =>
      n <- mainIter topic ev ;;
      match n with
      | Go_on => mainFor topic evs
      | Quit => ret true
      end
  end.

Section Main.
Variable Date : Z → Z → Z → Z → Z → Z → Z → Time.
Variable a : Arch.
Variable w : World.

(** [main].  A deferred call runs when [main] returns or panics, the
    last deferred first, and does not run when [log.Fatal] exits. *)
Definition main : P unit :=
  (if (length (osArgs w) <? 2)%nat then
     match osArgs w !! 0%nat with
     | Some arg0 => Fatalf "Usage: %s <config-file.yaml>" [AStr arg0]
     | None => pend Panicked
     end
   else pret tt) ;;;
  configPath <~ match osArgs w !! 1%nat with
                | Some p => pret p
                | None => pend Panicked
                end ;;
  r <~ readConfig w configPath ;;
  let (cfg, err) := r in
  match err with
  | Some err => Fatalf "Error reading config file: %v" [AErr err]
  | None => pret tt
  end ;;;
  err <~ logger.Setup w (Cfg.LogLevel cfg) ;;
  match err with
  | Some err => Fatalf "%v" [AErr err]
  | None => pret tt
  end ;;;
  pemit (PEff (ELog Info "Starting" [])) ;;;
  pemit PNotify ;;;
  let mqttClient :=
    mqtt.mk (Cfg.User (Cfg.Mqtt cfg)) (Cfg.Password (Cfg.Mqtt cfg))
      (Cfg.BrokerURI (Cfg.Mqtt cfg)) (Cfg.ClientID (Cfg.Mqtt cfg)) in
  err <~ mqtt.Init w mqttClient ;;
  match err with
  | Some _ => Fatalf "Failed to connect to MQTT broker" []
  | None => pret tt
  end ;;;
  (* defer mqttClient.Disconnect() *)
  let inv := mkInverter (Cfg.Address (Cfg.Inverter cfg))
               (Cfg.BaudRate (Cfg.Inverter cfg)) in
  r <~ call (Connect a inv (newAns w) (openAns w)) tt ;;
  match r.2 with
  | Some _ => Fatalf "Failed to connect to inverter" []
  | None => pret tt
  end ;;;
  (* defer inv.Disconnect() *)
  r <~ call (CheckSetTime Date (clockRd w) (clockNow w) (clockWr w)) tt ;;
  match r.2 with
  | Panic =>
      pemit (PEff EClose) ;;; mqtt.Disconnect ;;; pend Panicked
  | Err err =>
      pemit (PEff (ELog Warn "Failed to CheckSetTime on inverter upon start: %v"
                     [AErr err]))
  | Ok _ => pret tt
  end ;;;
  (* defer cancel() *)
  pemit PGoRead ;;;
  r <~ call (mainFor (Cfg.Topic (Cfg.Mqtt cfg)) (events w))
         (index InverterStateCodes 0) ;;
  if r.2 then
    pemit PCancel ;;; pemit (PEff EClose) ;;; mqtt.Disconnect ;;;
    pend (Exited 0)
  else pend Running.

End Main.

(** The reader goroutine is started somewhere in a trace. *)
Definition started (t : list ProcEffect) : bool :=
  existsb (λ e, match e with PGoRead => true | _ => false end) t.

(** A resource is released somewhere in a trace: the context is
    cancelled, the transport is closed or the broker is left. *)
Definition released (t : list ProcEffect) : bool :=
  existsb (λ e, match e with
                | PCancel | PEff EClose | PMqttDisconnect _ => true
                | _ => false
                end) t.

(** Everything that [main] needs before it starts the reader: a path
    on the command line, a config file that reads and parses and names
    a topic, a log level that parses, a broker and an inverter that
    connect, and a first clock check that does not panic. *)
Definition startupOk (w : World) : Prop :=
  (2 <= length (osArgs w))%nat ∧
  (∃ data cfg, readFile w = inl data ∧ unmarshal w = inl cfg ∧
               Cfg.Topic (Cfg.Mqtt cfg) ≠ "") ∧
  (∃ lvl, levelAns w = inl lvl) ∧
  mqttConnect w = None ∧
  newAns w = None ∧
  openAns w = None ∧
  (∀ data, clockRd w = inl data → (6 <= length data)%nat).

(** A world for the examples: everything answers well, the clock is
    five seconds behind, and [main] receives a record and then the
    signal. *)
Definition sampleCfg : Cfg.t :=
  Cfg.mk "info" (Cfg.mkInverter "/dev/ttyUSB0" 9600)
    (Cfg.mkMqtt "user" "secret" "growatt" "tcp://broker:1883" "growatt").

Definition sampleWorld : World :=
  mkWorld ["go-growatt"; "config.yaml"] (inl "...") (inl sampleCfg)
    (inl 0) "INFO" None None None
    (inl [2024; 3; 15; 10; 30; 0]) (utcDate 2024 3 15 10 30 5 0) (λ _ _, None)
    [Msg normalStats "2024-03-15 10:30:00"; Sig "interrupt";
     Msg waitingStats "2024-03-15 10:30:02"].

(** The thread of [main] ends with status 0 after an orderly shutdown
    on the signal [sig]: the signal is logged, then the deferred calls
    run, the last deferred first. *)
Definition shutsDown (sig : string) (p : P unit) : Prop :=
  p.2 = inr (Exited 0) ∧
  ∃ pre, p.1 = pre ++ [PEff (ELog Info "Stopping! Got signal %v" [AStr sig]);
                       PCancel; PEff EClose; PMqttDisconnect 250].

(** A thread of [main] that ends with status 1 has released nothing. *)
Definition exitsUnreleased (p : P unit) : Prop :=
  p.2 = inr (Exited 1) → released p.1 = false.

(** A world in which the broker connects and the serial port of the
    inverter does not open. *)
Definition portBusyWorld : World :=
  mkWorld ["go-growatt"; "config.yaml"] (inl "...") (inl sampleCfg)
    (inl 0) "INFO" None None (Some (mkError "*fs.PathError" "device busy"))
    (inl [2024; 3; 15; 10; 30; 0]) (utcDate 2024 3 15 10 30 5 0) (λ _ _, None)
    [].

(** * Properties *)

(** ** Machine integers and raw words *)

Lemma uint32_small (x : Z) : 0 <= x < 2 ^ 32 → uint32 x = x.
Proof. intros H. unfold uint32. by rewrite Z.mod_small. Qed.

Lemma shl32_uint16 (x : Z) : is_uint16 x → shl32 (uint32 x) 16 = Z.shiftl x 16.
Proof.
  unfold is_uint16. intros H. unfold shl32.
  rewrite (uint32_small x) by lia.
  apply uint32_small. rewrite Z.shiftl_mul_pow2 by lia. lia.
Qed.

Lemma word_uint16 (data : list Z) (n : nat) :
  Forall is_uint16 data → is_uint16 (word data n).
Proof.
  intros H. unfold word.
  destruct (decide (n < length data)%nat) as [Hlt|Hge].
  - rewrite Forall_forall in H. apply H, list_elem_of_In, nth_In, Hlt.
  - rewrite nth_overflow by lia. unfold is_uint16. lia.
Qed.

Lemma lookup_word (data : list Z) (n : nat) :
  (n < length data)%nat → data !! n = Some (word data n).
Proof.
  intros H. unfold word.
  destruct (lookup_lt_is_Some_2 data n H) as [x Hx].
  rewrite Hx. f_equal. symmetry. by apply nth_lookup_Some with (d := 0) in Hx.
Qed.

Lemma udiv_word (data : list Z) (n : nat) (k : Z) :
  Forall is_uint16 data → 0 < k → udiv (word data n) k = word data n ÷ k.
Proof.
  intros H Hk. destruct (word_uint16 data n H). unfold udiv.
  by rewrite Z.quot_div_nonneg by lia.
Qed.

Lemma pair32_dword (data : list Z) (n : nat) :
  Forall is_uint16 data →
  or32 (shl32 (uint32 (word data n)) 16) (uint32 (word data (S n))) = dword data n.
Proof.
  intros H. unfold or32, dword.
  rewrite shl32_uint16 by by apply word_uint16.
  rewrite (uint32_small (word data (S n))); [done|].
  destruct (word_uint16 data (S n) H). lia.
Qed.

Lemma dword_nonneg (data : list Z) (n : nat) :
  Forall is_uint16 data → 0 <= dword data n.
Proof.
  intros H. destruct (word_uint16 data n H), (word_uint16 data (S n) H).
  apply Z.lor_nonneg. split; [by apply Z.shiftl_nonneg | done].
Qed.

Lemma udiv_dword (data : list Z) (n : nat) (k : Z) :
  Forall is_uint16 data → 0 < k → udiv (dword data n) k = dword data n ÷ k.
Proof.
  intros H Hk. pose proof (dword_nonneg data n H). unfold udiv.
  by rewrite Z.quot_div_nonneg by lia.
Qed.

(** ** The decoder *)

Lemma decodeStats_41 (now : string) (data : list Z) :
  length data = 41%nat → decodeStats now data = Some (decoded now data).
Proof.
  intros H. unfold decodeStats.
  repeat (rewrite lookup_word by lia; simpl).
  reflexivity.
Qed.

(** A block that is too short makes an index expression panic. *)
Lemma decodeStats_short (now : string) (data : list Z) :
  (length data < 41)%nat → decodeStats now data = None.
Proof.
  intros H. unfold decodeStats.
  rewrite (lookup_ge_None_2 data 40) by lia.
  repeat (match goal with
          | |- mbind _ (?l !! ?n) = None =>
              destruct (l !! n); cbn [mbind option_bind]; [|reflexivity]
          end).
  reflexivity.
Qed.

Lemma index_known :
  index InverterStateCodes 0 = "waiting" ∧
  index InverterStateCodes 1 = "normal" ∧
  index InverterStateCodes 3 = "fault".
Proof. by vm_compute. Qed.

Lemma index_unknown (code : Z) :
  code ≠ 0 → code ≠ 1 → code ≠ 3 → index InverterStateCodes code = "".
Proof.
  intros H0 H1 H3. unfold index, InverterStateCodes.
  rewrite !lookup_insert_ne by done. by rewrite lookup_empty.
Qed.

(** Six of the seven double-word power fields combine the two words
    assigned to them; [PV1InputWatt] combines word 5 with itself. *)
Lemma decodeStats_powers (now : string) (data : list Z) :
  length data = 41%nat → Forall is_uint16 data →
  ∃ st, decodeStats now data = Some st ∧ powersOfTwoWords data st ∧
    PV1InputWatt st = Z.lor (Z.shiftl (word data 5) 16) (word data 5) ÷ 10.
Proof.
  intros Hlen Hw. exists (decoded now data).
  split; [by apply decodeStats_41|].
  unfold powersOfTwoWords, decoded; cbn [PVInputPower PV2InputWatt ACWatt AC1Watt
    AC2Watt AC3Watt PV1InputWatt].
  rewrite !pair32_dword, !udiv_dword by (done || lia).
  repeat split.
  unfold or32. rewrite shl32_uint16 by by apply word_uint16.
  destruct (word_uint16 data 5 Hw).
  rewrite uint32_small by lia. unfold udiv.
  rewrite Z.quot_div_nonneg; [done| |lia].
  apply Z.lor_nonneg. split; [by apply Z.shiftl_nonneg | done].
Qed.

(** C1: at the block whose only non-zero word is word 6 = 10, the
    decoder gives [PV1InputWatt] = 0, where words 5 and 6 combined and
    divided by ten give 1: the field reads word 5 for both halves and
    never reads word 6. *)
Theorem PV1InputWatt_ignores_word6 :
  let data := <[6%nat := 10]> zeroBlock in
  length data = 41%nat ∧ Forall is_uint16 data ∧
  ∃ st, decodeStats "" data = Some st ∧
    PV1InputWatt st = 0 ∧ dword data 5 ÷ 10 = 1.
Proof.
  cbn zeta. split; [done|]. split.
  - apply Forall_forall. intros x Hx.
    apply list_elem_of_In in Hx. vm_compute in Hx.
    unfold is_uint16. intuition lia.
  - exists (decoded "" (<[6%nat := 10]> zeroBlock)).
    split; [by apply decodeStats_41|]. by vm_compute.
Qed.

(** C8, as amended: on every block of 41 words the voltage, current and
    temperature fields are the raw word divided by 10, the frequency is
    the raw word divided by 100, the runtime is the two combined words
    divided by 2, all truncating, the fault code is word 40 as it is,
    and the two energy totals are the combined words times 100 reduced
    modulo 2^32. *)
Theorem decodeStats_scaling (now : string) (data : list Z) :
  length data = 41%nat → Forall is_uint16 data →
  ∃ st, decodeStats now data = Some st ∧
    scaledWords data st ∧ totalsWrapped data st.
Proof.
  intros Hlen Hw. exists (decoded now data).
  split; [by apply decodeStats_41|].
  unfold scaledWords, totalsWrapped, decoded; cbn [PV1InputVolt PV1InputCurrent
    PV2InputVolt PV2InputCurrent AC1Volt AC1Current AC2Volt AC2Current AC3Volt
    AC3Current ACFrequency TotalWorkTimeSecs Temperature FaultCode
    TotalTodayWatt TotalAllTimeWatt].
  rewrite !pair32_dword, !udiv_dword, !udiv_word by (done || lia).
  by repeat split.
Qed.

Lemma decodeStats_scaling_witness :
  ∃ st, decodeStats "2024-03-15 10:30:00" (<[27%nat := 1500]> zeroBlock) = Some st ∧
    scaledWords (<[27%nat := 1500]> zeroBlock) st ∧
    totalsWrapped (<[27%nat := 1500]> zeroBlock) st.
Proof.
  apply decodeStats_scaling; [reflexivity|].
  apply Forall_forall. intros x Hx.
  apply list_elem_of_In in Hx. vm_compute in Hx.
  unfold is_uint16. intuition lia.
Defined.

(** C8, as stated, fails: with word 26 = 65535 the combined words times
    100 are 429490176000, which no 32-bit field holds; the decoder gives
    4288413696. *)
Lemma totals_wrap_counterexample :
  let data := <[26%nat := 65535]> zeroBlock in
  length data = 41%nat ∧ Forall is_uint16 data ∧
  ∃ st, decodeStats "" data = Some st ∧
    TotalTodayWatt st = 4288413696 ∧
    dword data 26 * 100 = 429490176000 ∧
    ¬ totalsAsStated data st.
Proof.
  cbn zeta. split; [done|]. split.
  - apply Forall_forall. intros x Hx.
    apply list_elem_of_In in Hx. vm_compute in Hx.
    unfold is_uint16. intuition lia.
  - exists (decoded "" (<[26%nat := 65535]> zeroBlock)).
    split; [by apply decodeStats_41|].
    split; [by vm_compute|]. split; [by vm_compute|].
    intros [H _]. vm_compute in H. discriminate H.
Qed.

(** C9: the table holds 0, 1 and 3 only, and a state word with any
    other value, 2 included, decodes to the empty label. *)
Theorem unknown_state_code_empty_label (now : string) (data : list Z)
    (st : Stats) (code : Z) :
  data !! 0%nat = Some code → decodeStats now data = Some st →
  code ≠ 0 → code ≠ 1 → code ≠ 3 →
  State st = "" ∧
  index InverterStateCodes code = "" ∧
  InverterStateCodes = {[ 0 := "waiting"; 1 := "normal"; 3 := "fault" ]}.
Proof.
  intros Hc Hd H0 H1 H3.
  split; [|split; [by apply index_unknown | reflexivity]].
  unfold decodeStats in Hd. rewrite Hc in Hd. cbn [mbind option_bind] in Hd.
  repeat (match type of Hd with
          | mbind _ (?l !! ?n) = Some _ =>
              destruct (l !! n); cbn [mbind option_bind] in Hd; [|discriminate Hd]
          end).
  injection Hd as <-. cbn [State]. by apply index_unknown.
Qed.

Lemma unknown_state_code_empty_label_witness :
  State (decoded "" (<[0%nat := 2]> zeroBlock)) = "" ∧
  index InverterStateCodes 2 = "" ∧
  InverterStateCodes = {[ 0 := "waiting"; 1 := "normal"; 3 := "fault" ]}.
Proof.
  apply (unknown_state_code_empty_label "" (<[0%nat := 2]> zeroBlock)
           (decoded "" (<[0%nat := 2]> zeroBlock)) 2);
    [reflexivity | by apply decodeStats_41 | lia | lia | lia].
Defined.

(** ** The clock write-back *)

Section SetTime.
Context {S : Type}.
Variable wr : Z → Z → option error.

Lemma fieldBlock_seq d fmt args addr v (k : Block S) l :
  addr ≠ 45 → refines wr k l →
  refines wr (seqBlock (fieldBlock wr d fmt args addr v) k)
    ((if d then [(addr, v)] else []) ++ l).
Proof.
  intros Ha Hk s. destruct (Hk s) as (Hw & Hv & Hf).
  apply Z.eqb_neq in Ha.
  destruct d; cbn [app writeBack].
  - unfold seqBlock, fieldBlock, WriteRegister, return_, fallthrough,
      bind, emit, ret.
    destruct (wr addr v) as [err|].
    + rewrite Ha. by cbn.
    + destruct (k s) as [[t s'] r]. destruct (writeBack wr l) as [w r'].
      cbn in *. by subst.
  - unfold seqBlock, fieldBlock, fallthrough, bind, ret.
    destruct (k s) as [[t s'] r]. cbn in *. by subst.
Qed.

Lemma yearBlock_refines d fmt args v :
  refines wr (yearBlock (S := S) wr d fmt args 45 v) (if d then [(45, v)] else []).
Proof.
  intros s. destruct d; cbn [writeBack]; [|done].
  unfold yearBlock, WriteRegister, fallthrough, bind, emit, ret.
  by destruct (wr 45 v).
Qed.

Lemma body_refines (b : Block S) l s :
  refines wr b l →
  core (trace (body b s)) = (writeBack wr l).1 ∧
  value (body b s) = (writeBack wr l).2 ∧
  final (body b s) = s.
Proof.
  intros Hb. destruct (Hb s) as (Hw & Hv & Hf).
  unfold body, seqBlock, return_, bind, ret.
  destruct (b s) as [[t s'] [r|]]; cbn in *; rewrite ?app_nil_r; by subst.
Qed.

Lemma due_app (inv new : Time) :
  due inv new =
    (if bool_decide (Second inv ≠ Second new) then [(50, uint16 (Second new))] else []) ++
    (if bool_decide (Minute inv ≠ Minute new) then [(49, uint16 (Minute new))] else []) ++
    (if bool_decide (Hour inv ≠ Hour new) then [(48, uint16 (Hour new))] else []) ++
    (if bool_decide (Day inv ≠ Day new) then [(47, uint16 (Day new))] else []) ++
    (if bool_decide (Month inv ≠ Month new) then [(46, uint16 (Month new))] else []) ++
    (if bool_decide (Year inv ≠ Year new) then [(45, uint16 (Year new))] else []).
Proof.
  unfold due, clockFields. cbn [omap list_omap fst snd].
  by repeat case_bool_decide.
Qed.

(** [setTime] does what [writeBack] says for the writes that are due. *)
Lemma setTime_writeBack (inv new : Time) (s : S) :
  core (trace (setTime wr inv new s)) = (writeBack wr (due inv new)).1 ∧
  value (setTime wr inv new s) = (writeBack wr (due inv new)).2 ∧
  final (setTime wr inv new s) = s.
Proof.
  rewrite due_app. unfold setTime. apply body_refines.
  apply (fieldBlock_seq (bool_decide (Second inv ≠ Second new)) _ _ 50 (uint16 (Second new))); [done|].
  apply (fieldBlock_seq (bool_decide (Minute inv ≠ Minute new)) _ _ 49 (uint16 (Minute new))); [done|].
  apply (fieldBlock_seq (bool_decide (Hour inv ≠ Hour new)) _ _ 48 (uint16 (Hour new))); [done|].
  apply (fieldBlock_seq (bool_decide (Day inv ≠ Day new)) _ _ 47 (uint16 (Day new))); [done|].
  apply (fieldBlock_seq (bool_decide (Month inv ≠ Month new)) _ _ 46 (uint16 (Month new))); [done|].
  apply (yearBlock_refines (bool_decide (Year inv ≠ Year new)) _ _ (uint16 (Year new))).
Qed.

(** What [writeBack] does when no write fails but, possibly, that of
    the year. *)
Lemma writeBack_no_abort (l : list (Z * Z)) :
  (∀ x, x ∈ l → x.1 ≠ 45 → wr x.1 x.2 = None) →
  writes (writeBack wr l).1 = l ∧ (writeBack wr l).2 = None.
Proof.
  induction l as [|[addr v] l IH]; intros H; [done|].
  destruct IH as [IHw IHr]; [intros x Hx; apply H; by right|].
  cbn [writeBack]. destruct (writeBack wr l) as [w r]. cbn in IHw, IHr.
  destruct (wr addr v) as [err|] eqn:E.
  - destruct (addr =? 45) eqn:Ea.
    + cbn. by subst.
    + apply Z.eqb_neq in Ea.
      pose proof (H (addr, v) ltac:(by left) Ea) as E'. cbn in E'. congruence.
  - cbn. by subst.
Qed.

(** What [writeBack] does when a write other than that of the year
    fails after writes that succeed. *)
Lemma writeBack_abort (pre post : list (Z * Z)) (addr v : Z) (err : error) :
  (∀ x, x ∈ pre → wr x.1 x.2 = None) → addr ≠ 45 → wr addr v = Some err →
  writeBack wr (pre ++ (addr, v) :: post) =
    (map (λ x, EWriteRegister x.1 x.2) pre ++ [EWriteRegister addr v],
     Some (Errorf (failedToUpdate addr) err)).
Proof.
  intros Hpre Ha Hw. induction pre as [|[a0 v0] pre IH]; cbn [app writeBack map].
  - rewrite Hw. apply Z.eqb_neq in Ha. by rewrite Ha.
  - pose proof (Hpre (a0, v0) ltac:(by left)) as E. cbn in E. rewrite E.
    rewrite IH; [done|]. intros x Hx. apply Hpre. by right.
Qed.

Lemma writeBack_prefix (l : list (Z * Z)) :
  writes (writeBack wr l).1 `prefix_of` l.
Proof.
  induction l as [|[addr v] l IH]; [done|].
  cbn [writeBack]. destruct (writeBack wr l) as [w r]. cbn in IH.
  destruct (wr addr v) as [err|]; [destruct (addr =? 45)|]; cbn.
  - by apply prefix_cons.
  - apply prefix_cons, prefix_nil.
  - by apply prefix_cons.
Qed.

Lemma writes_core (t : list (S * Effect)) :
  writes (core t) = writes (effects t).
Proof.
  unfold core. induction (effects t) as [|e es IH]; [done|].
  rewrite filter_cons. destruct (decide (isInfo e = false)) as [H|H].
  - unfold writes in *. cbn [omap list_omap]. by rewrite IH.
  - destruct e as [lvl fmt args| | | | | | |]; try done.
Qed.

Lemma writeBack_year_fails (pre : list (Z * Z)) (v : Z) (err : error) :
  (∀ x, x ∈ pre → wr x.1 x.2 = None) → wr 45 v = Some err →
  writeBack wr (pre ++ [(45, v)]) =
    (map (λ x, EWriteRegister x.1 x.2) pre ++ [EWriteRegister 45 v; yearWarning err],
     None).
Proof.
  intros Hpre Hw. induction pre as [|[a0 v0] pre IH]; cbn [app writeBack map].
  - by rewrite Hw.
  - pose proof (Hpre (a0, v0) ltac:(by left)) as E. cbn in E. rewrite E.
    rewrite IH; [done|]. intros x Hx. apply Hpre. by right.
Qed.

Lemma due_year (inv new : Time) :
  Year inv ≠ Year new →
  ∃ pre, due inv new = pre ++ [(45, uint16 (Year new))] ∧
         ∀ x, x ∈ pre → x.1 ≠ 45.
Proof.
  intros Hy. rewrite due_app, (bool_decide_eq_true_2 _ Hy), !app_assoc.
  eexists. split; [reflexivity|].
  intros x Hx. rewrite !elem_of_app in Hx.
  repeat case_bool_decide;
    rewrite ?list_elem_of_singleton, ?elem_of_nil in Hx;
    intuition (subst; done).
Qed.
End SetTime.

(** C6: the registers that [setTime] writes are, in this order, those
    of the second, minute, hour, day, month and year whose device value
    differs from the host value, each with the host value: what is
    written is a prefix of that list, and the whole of it when no write
    other than that of the year fails.  A field that already matches
    is not in the list. *)
Theorem setTime_writes_due {S} (wr : Z → Z → option error)
    (inverterTime newTime : Time) (s : S) :
  writes (effects (trace (setTime wr inverterTime newTime s)))
    `prefix_of` due inverterTime newTime ∧
  ((∀ x, x ∈ due inverterTime newTime → x.1 ≠ 45 → wr x.1 x.2 = None) →
   writes (effects (trace (setTime wr inverterTime newTime s)))
     = due inverterTime newTime).
Proof.
  destruct (setTime_writeBack wr inverterTime newTime s) as (Hc & _ & _).
  rewrite <- writes_core, Hc. split.
  - apply writeBack_prefix.
  - intros H. by apply writeBack_no_abort.
Qed.

Lemma setTime_writes_due_witness :
  writes (effects (trace (setTime (λ _ _, None)
                            (utcDate 2024 3 15 10 30 0 0)
                            (utcDate 2024 3 15 11 30 31 0) tt)))
    = [(50, 31); (48, 11)].
Proof.
  apply (proj2 (setTime_writes_due (λ _ _, None)
                  (utcDate 2024 3 15 10 30 0 0)
                  (utcDate 2024 3 15 11 30 31 0) tt)).
  intros x _ _. reflexivity.
Defined.

(** C5: when no write of another field fails and the write of the
    year fails, [setTime] returns nil and the warning with the error is
    logged right after the write; when the write of the second, minute,
    hour, day or month fails, the writes before it having succeeded,
    that write is the last effect of the pass and [setTime] returns the
    error, wrapped in the text for that field. *)
Theorem setTime_failures {S} (wr : Z → Z → option error)
    (inverterTime newTime : Time) (s : S) :
  (∀ err,
     (∀ x, x ∈ due inverterTime newTime → x.1 ≠ 45 → wr x.1 x.2 = None) →
     Year inverterTime ≠ Year newTime →
     wr 45 (uint16 (Year newTime)) = Some err →
     value (setTime wr inverterTime newTime s) = None ∧
     ∃ pre, due inverterTime newTime = pre ++ [(45, uint16 (Year newTime))] ∧
       core (trace (setTime wr inverterTime newTime s)) =
         map (λ x, EWriteRegister x.1 x.2) pre ++
         [EWriteRegister 45 (uint16 (Year newTime)); yearWarning err]) ∧
  (∀ pre addr v post err,
     due inverterTime newTime = pre ++ (addr, v) :: post →
     addr ≠ 45 →
     (∀ x, x ∈ pre → wr x.1 x.2 = None) →
     wr addr v = Some err →
     value (setTime wr inverterTime newTime s)
       = Some (Errorf (failedToUpdate addr) err) ∧
     core (trace (setTime wr inverterTime newTime s)) =
       map (λ x, EWriteRegister x.1 x.2) pre ++ [EWriteRegister addr v]).
Proof.
  destruct (setTime_writeBack wr inverterTime newTime s) as (Hc & Hv & _).
  rewrite Hc, Hv. split.
  - intros err Hok Hy Hw.
    destruct (due_year inverterTime newTime Hy) as (pre & Hdue & Hpre).
    rewrite Hdue in *.
    rewrite (writeBack_year_fails wr pre _ err); [eauto| |done].
    intros x Hx. apply Hok; [|by apply Hpre].
    apply elem_of_app. by left.
  - intros pre addr v post err Hdue Ha Hpre Hw.
    rewrite Hdue. by rewrite (writeBack_abort wr pre post addr v err).
Qed.

Lemma setTime_failures_witness :
  (value (setTime (λ addr _, if addr =? 45 then Some ErrRequestTimedOut else None)
            (utcDate 2023 3 15 10 30 0 0) (utcDate 2024 3 15 10 30 31 0) tt) = None ∧
   core (trace (setTime (λ addr _, if addr =? 45 then Some ErrRequestTimedOut else None)
                  (utcDate 2023 3 15 10 30 0 0) (utcDate 2024 3 15 10 30 31 0) tt))
     = [EWriteRegister 50 31; EWriteRegister 45 2024; yearWarning ErrRequestTimedOut]) ∧
  (value (setTime (λ addr _, if addr =? 49 then Some ErrRequestTimedOut else None)
            (utcDate 2023 3 15 10 30 0 0) (utcDate 2024 3 15 10 31 31 0) tt)
     = Some (Errorf "failed to update time(minute): " ErrRequestTimedOut) ∧
   core (trace (setTime (λ addr _, if addr =? 49 then Some ErrRequestTimedOut else None)
                  (utcDate 2023 3 15 10 30 0 0) (utcDate 2024 3 15 10 31 31 0) tt))
     = [EWriteRegister 50 31; EWriteRegister 49 31]).
Proof.
  split.
  - destruct (proj1 (setTime_failures
                       (λ addr _, if addr =? 45 then Some ErrRequestTimedOut else None)
                       (utcDate 2023 3 15 10 30 0 0) (utcDate 2024 3 15 10 30 31 0) tt)
                ErrRequestTimedOut) as (Hv & pre & Hdue & Hc).
    + intros [addr v] _ Ha. cbn in *. apply Z.eqb_neq in Ha. by rewrite Ha.
    + vm_compute. discriminate.
    + reflexivity.
    + split; [exact Hv|].
      change (due (utcDate 2023 3 15 10 30 0 0) (utcDate 2024 3 15 10 30 31 0))
        with ([(50, 31)] ++ [(45, uint16 (Year (utcDate 2024 3 15 10 30 31 0)))]) in Hdue.
      apply app_inj_tail in Hdue as [<- _]. exact Hc.
  - apply (proj2 (setTime_failures
                    (λ addr _, if addr =? 49 then Some ErrRequestTimedOut else None)
                    (utcDate 2023 3 15 10 30 0 0) (utcDate 2024 3 15 10 31 31 0) tt)
             [(50, 31)] 49 31 [(45, 2024)] ErrRequestTimedOut).
    + reflexivity.
    + lia.
    + intros x Hx. apply list_elem_of_singleton in Hx. by subst.
    + reflexivity.
Defined.

(** ** The threshold *)

Lemma Seconds_exact (d : Z) : (Seconds d == d # 1000000000)%Q.
Proof.
  unfold Seconds, time_Second.
  pose proof (Z.quot_rem' d 1000000000) as H.
  unfold Qeq, Qplus, Qdiv, Qmult, Qinv, inject_Z. cbn [Qnum Qden].
  lia.
Qed.

Lemma exceeds_threshold (d : Z) :
  negb (Qle_bool (Qabs (Seconds d)) (inject_Z 30)) = true ↔
  30 * time_Second < Z.abs d.
Proof.
  rewrite negb_true_iff, <- not_true_iff_false, Qle_bool_iff.
  rewrite (Qabs_wd _ _ (Seconds_exact d)).
  unfold Qabs, Qle, inject_Z, time_Second. cbn [Qnum Qden]. lia.
Qed.

Lemma Sub_exceeds (t u : Time) :
  30 * time_Second < Z.abs (Sub t u) ↔
  30 * time_Second < Z.abs (instant t - instant u).
Proof.
  unfold Sub, minDuration, maxDuration, time_Second.
  repeat case_match; lia.
Qed.

(** C4: with a device time read from the six clock registers, a
    difference of at most thirty seconds to the host time, thirty
    included, makes [CheckSetTime] log the device time, write nothing
    and return nil; a larger difference makes it run [setTime] from the
    device time to the host time and return what [setTime] returns. *)
Theorem CheckSetTime_threshold {S} (Date : Z → Z → Z → Z → Z → Z → Z → Time)
    (y mo d h mi sec : Z) (now : Time) (wr : Z → Z → option error) (s : S) :
  let inverterTime := Date y mo d h mi sec 0 in
  let r := CheckSetTime Date (inl [y; mo; d; h; mi; sec]) now wr s in
  let p := setTime wr inverterTime now s in
  (Z.abs (instant now - instant inverterTime) <= 30 * time_Second →
   effects (trace r) =
     [ELog Debug "Current time on inverter is %v" [ATime inverterTime]] ∧
   writes (effects (trace r)) = [] ∧
   value r = Ok tt) ∧
  (30 * time_Second < Z.abs (instant now - instant inverterTime) →
   (∃ args,
      effects (trace r) =
        ELog Debug "Current time on inverter is %v" [ATime inverterTime]
        :: ELog Info
             "Time difference(%d secs) on inverter(%s) exceeds threshold of 30 seconds. Updating to time(%s) now!"
             args
        :: effects (trace p)) ∧
   writes (effects (trace r)) = writes (effects (trace p)) ∧
   value r = match value p with Some err => Err err | None => Ok tt end).
Proof.
  intros inverterTime r p. subst r p.
  pose proof (exceeds_threshold (Sub now inverterTime)) as Hx.
  rewrite Sub_exceeds in Hx.
  unfold CheckSetTime, GetTime. cbn [lookup list_lookup mbind option_bind].
  unfold bind, emit, ret. cbv beta iota zeta. fold inverterTime.
  destruct (negb (Qle_bool (Qabs (Seconds (Sub now inverterTime))) (inject_Z 30))).
  - split; [intros Hle; apply proj1 in Hx; specialize (Hx eq_refl); lia|].
    intros _.
    destruct (setTime wr inverterTime now s) as [[t s'] [err|]];
      cbn [trace value effects fmap list_fmap fst snd app];
      rewrite app_nil_r; (split; [eauto | split; reflexivity]).
  - split; [done|]. intros Hgt. apply proj2 in Hx. by specialize (Hx Hgt).
Qed.

Lemma CheckSetTime_threshold_witness :
  (let r := CheckSetTime utcDate (inl [2024; 3; 15; 10; 30; 0])
              (utcDate 2024 3 15 10 30 30 0) (λ _ _, None) tt in
   writes (effects (trace r)) = [] ∧ value r = Ok tt) ∧
  (let r := CheckSetTime utcDate (inl [2024; 3; 15; 10; 30; 0])
              (utcDate 2024 3 15 10 30 31 0) (λ _ _, None) tt in
   writes (effects (trace r)) = [(50, 31)] ∧ value r = Ok tt).
Proof.
  split.
  - pose proof (CheckSetTime_threshold utcDate 2024 3 15 10 30 0
                  (utcDate 2024 3 15 10 30 30 0) (λ _ _, None) tt) as H.
    cbn zeta in H. destruct H as [H _].
    destruct H as (_ & Hw & Hv); [vm_compute; discriminate|]. by split.
  - pose proof (CheckSetTime_threshold utcDate 2024 3 15 10 30 0
                  (utcDate 2024 3 15 10 30 31 0) (λ _ _, None) tt) as H.
    cbn zeta in H. destruct H as [_ H].
    destruct H as (_ & Hw & Hv); [vm_compute; reflexivity|].
    split; [rewrite Hw | rewrite Hv]; reflexivity.
Defined.

(** ** The poll loop *)

Lemma wrapInt_small (a : Arch) (z : Z) :
  - 2 ^ 31 <= z < 2 ^ 31 → wrapInt a z = z.
Proof.
  intros H. unfold wrapInt.
  destruct a; cbn [intBits]; rewrite Z.mod_small; lia.
Qed.

Section Poll.
Variable Date : Z → Z → Z → Z → Z → Z → Z → Time.
Variable a : Arch.
Variable i : Inverter.

(** [Connect] starts with its line at level Info and the call of
    [modbus.NewClient]; it closes nothing, pauses nowhere and leaves
    the variables as they are. *)
Lemma Connect_shape {S} (newAns openAns : option error) (s : S) :
  ∃ fmt args url speed rest,
    effects (trace (Connect a i newAns openAns s)) =
      ELog Info fmt args :: ENewClient url speed :: rest ∧
    (∀ more, reconnects (rest ++ more) = reconnects more) ∧
    sleeps rest = [] ∧
    final (Connect a i newAns openAns s) = s.
Proof.
  unfold Connect, bind, emit, ret.
  destruct newAns as [e|]; [|destruct openAns as [e|]];
    cbn; eauto 10.
Qed.

(** A telemetry tick whose read fails, whatever the error. *)
Lemma ReadIter_error (v : ReadVars) (now : string) (err : error)
    (closeAns newAns openAns : option error) :
  let timedOut := bool_decide (Error err = "request timed out") in
  let waiting := bool_decide (lastInverterState v = "waiting") in
  let cnt' := wrapInt a (timeoutCnt v + 1) in
  let r := ReadIter Date a i (StatsTick now (inr err) closeAns newAns openAns) v in
  value r = Continue ∧
  final r = mkReadVars (lastInverterState v) timedOut
              (if timedOut && negb waiting then cnt' else timeoutCnt v) ∧
  sleeps (effects (trace r)) = (if timedOut && waiting then [time_Minute] else []) ∧
  (∀ more, reconnects (effects (trace r) ++ more) =
     ((if timedOut && negb waiting && (10 <? cnt')%Z then 1 else 0)
      + reconnects more)%nat) ∧
  (timedOut && waiting = true →
   effects (trace r) =
     [ELog Debug
        "Last known inverter state is 'waiting' and got error: %v. Sleep for a minute and try again."
        [AErr err];
      ESleep time_Minute]).
Proof.
  intros timedOut waiting cnt' r. subst r.
  unfold ReadIter, getStats.
  change (index InverterStateCodes 0) with "waiting".
  fold timedOut.
  destruct v as [l t c]. cbn [lastInverterState timeoutCnt] in *.
  unfold bind, get, put, emit, ret, setIsTimeoutError, setTimeoutCnt.
  destruct timedOut; cbv beta iota zeta; cbn [lastInverterState IsTimeoutError timeoutCnt];
    fold waiting; destruct waiting; cbn [andb negb].
  - by split_and!.
  - cbn [lastInverterState IsTimeoutError timeoutCnt]. fold cnt'.
    destruct (10 <? cnt').
    + unfold Disconnect, bind, emit, ret. cbv beta iota zeta.
      destruct (Connect_shape newAns openAns (mkReadVars l true cnt'))
        as (fmt & args & url & speed & rest & Ht & Hr & Hs & Hf).
      destruct (Connect a i newAns openAns (mkReadVars l true cnt')) as [[tc sc] rc].
      cbn [trace value final fst snd] in *. subst sc.
      cbn [app]. rewrite !app_nil_r.
      unfold effects in *. cbn [fmap list_fmap snd]. rewrite Ht.
      split_and!; try done.
      intros more. cbn [app reconnects]. by rewrite Hr.
    + by split_and!.
  - by split_and!.
  - by split_and!.
Qed.

Lemma ReadLoop_cons (t : Tick) (ticks : list Tick) (v : ReadVars) :
  value (ReadIter Date a i t v) = Continue →
  let r1 := ReadIter Date a i t v in
  let r2 := ReadLoop Date a i ticks (final r1) in
  ReadLoop Date a i (t :: ticks) v = (trace r1 ++ trace r2, final r2, value r2).
Proof.
  intros H. cbn [ReadLoop]. unfold bind.
  destruct (ReadIter Date a i t v) as [[t1 s1] n]. cbn in H. subst n.
  cbn [trace final value fst snd].
  by destruct (ReadLoop Date a i ticks s1) as [[t2 s2] r2].
Qed.

(** Consecutive timeouts while the last state is not ['waiting']: the
    counter counts them, and each of them that finds the counter
    above ten reconnects. *)
Lemma ReadLoop_timeouts (ticks : list Tick) (v : ReadVars) :
  Forall isTimeoutTick ticks →
  lastInverterState v ≠ "waiting" →
  0 <= timeoutCnt v →
  timeoutCnt v + Z.of_nat (length ticks) < 2 ^ 31 →
  let r := ReadLoop Date a i ticks v in
  value r = None ∧
  lastInverterState (final r) = lastInverterState v ∧
  timeoutCnt (final r) = timeoutCnt v + Z.of_nat (length ticks) ∧
  reconnects (effects (trace r)) = reconnectsOf (timeoutCnt v) (length ticks).
Proof.
  revert v. induction ticks as [|t ticks IH]; intros v Hall Hw H0 Hlt.
  - cbn. split_and!; try done. lia.
  - apply Forall_cons in Hall as [Ht Hall].
    destruct t as [now [data|err] cl nc op| |]; try done.
    cbn in Ht.
    destruct (ReadIter_error v now err cl nc op) as (Hv & Hf & _ & Hr & _).
    rewrite (bool_decide_eq_true_2 _ Ht), (bool_decide_eq_false_2 _ Hw) in Hf, Hr.
    cbn [andb negb] in Hf, Hr.
    cbn [length] in Hlt.
    rewrite wrapInt_small in Hf, Hr by lia.
    cbv zeta. rewrite (ReadLoop_cons _ _ _ Hv). rewrite Hf.
    cbn [trace final value fst snd].
    destruct (IH (mkReadVars (lastInverterState v) true (timeoutCnt v + 1)))
      as (IHv & IHl & IHc & IHr); cbn [lastInverterState timeoutCnt]; try done; try lia.
    cbn [lastInverterState timeoutCnt] in *.
    split_and!; try done.
    + rewrite IHc. cbn [length]. lia.
    + unfold effects in *. rewrite fmap_app, Hr. cbn [length reconnectsOf].
      by rewrite IHr.
Qed.
End Poll.

(** C7: a telemetry tick whose read fails with the text of a timeout
    while the last observed state is 'waiting' takes the backoff
    branch: it logs one line at level Debug, sleeps for one minute and
    does nothing else; the consecutive-timeout counter after the tick
    is the counter before it, the state stays 'waiting' and the loop
    goes on. *)
Theorem waiting_timeout_backs_off (Date : Z → Z → Z → Z → Z → Z → Z → Time)
    (a : Arch) (i : Inverter) (v : ReadVars) (now : string) (err : error)
    (closeAns newAns openAns : option error) :
  lastInverterState v = "waiting" →
  Error err = "request timed out" →
  let r := ReadIter Date a i (StatsTick now (inr err) closeAns newAns openAns) v in
  effects (trace r) =
    [ELog Debug
       "Last known inverter state is 'waiting' and got error: %v. Sleep for a minute and try again."
       [AErr err];
     ESleep time_Minute] ∧
  timeoutCnt (final r) = timeoutCnt v ∧
  lastInverterState (final r) = "waiting" ∧
  value r = Continue.
Proof.
  intros Hw Ht r.
  destruct (ReadIter_error Date a i v now err closeAns newAns openAns)
    as (Hv & Hf & _ & _ & He).
  rewrite (bool_decide_eq_true_2 _ Ht), (bool_decide_eq_true_2 _ Hw) in Hf, He.
  subst r. rewrite Hf. cbn [andb negb timeoutCnt lastInverterState].
  split_and!; try done. by apply He.
Qed.

Lemma waiting_timeout_backs_off_witness :
  let r := ReadIter utcDate arm sampleInverter timeoutTick
             (mkReadVars "waiting" false 7) in
  effects (trace r) =
    [ELog Debug
       "Last known inverter state is 'waiting' and got error: %v. Sleep for a minute and try again."
       [AErr ErrRequestTimedOut];
     ESleep time_Minute] ∧
  timeoutCnt (final r) = 7 ∧
  lastInverterState (final r) = "waiting" ∧
  value r = Continue.
Proof.
  apply (waiting_timeout_backs_off utcDate arm sampleInverter
           (mkReadVars "waiting" false 7) "2024-03-15 10:30:00"
           ErrRequestTimedOut None None None); reflexivity.
Defined.

(** C10: a failed read is taken for a timeout exactly when the text
    of its error is "request timed out", whatever the dynamic type of
    the error: the flag [IsTimeoutError] is that test, and the pause of
    the backoff branch, the increment of the counter and the reconnect
    are decided by the flag and the last observed state. *)
Theorem timeout_decided_by_message (Date : Z → Z → Z → Z → Z → Z → Z → Time)
    (a : Arch) (i : Inverter) (v : ReadVars) (now : string) (err : error)
    (closeAns newAns openAns : option error) :
  let r := ReadIter Date a i (StatsTick now (inr err) closeAns newAns openAns) v in
  let timedOut := bool_decide (Error err = "request timed out") in
  let waiting := bool_decide (lastInverterState v = "waiting") in
  (IsTimeoutError (final r) = true ↔ Error err = "request timed out") ∧
  sleeps (effects (trace r)) = (if timedOut && waiting then [time_Minute] else []) ∧
  timeoutCnt (final r) =
    (if timedOut && negb waiting then wrapInt a (timeoutCnt v + 1) else timeoutCnt v) ∧
  reconnects (effects (trace r)) =
    (if timedOut && negb waiting && (10 <? wrapInt a (timeoutCnt v + 1))
     then 1%nat else 0%nat) ∧
  value r = Continue.
Proof.
  intros r timedOut waiting.
  destruct (ReadIter_error Date a i v now err closeAns newAns openAns)
    as (Hv & Hf & Hs & Hr & _).
  fold r timedOut waiting in Hv, Hf, Hs, Hr.
  specialize (Hr []). rewrite app_nil_r, Nat.add_0_r in Hr.
  rewrite Hf. cbn [IsTimeoutError timeoutCnt].
  split_and!; try done.
  unfold timedOut. by rewrite bool_decide_eq_true.
Qed.

Lemma timeout_decided_by_message_witness :
  (let r := ReadIter utcDate arm sampleInverter
              (StatsTick "2024-03-15 10:30:00"
                 (inr (mkError "*net.OpError" "request timed out")) None None None)
              (mkReadVars "normal" false 10) in
   IsTimeoutError (final r) = true ∧ timeoutCnt (final r) = 11 ∧
   reconnects (effects (trace r)) = 1%nat) ∧
  (let r := ReadIter utcDate arm sampleInverter
              (StatsTick "2024-03-15 10:30:00"
                 (inr (Errorf "read: " ErrRequestTimedOut)) None None None)
              (mkReadVars "normal" false 10) in
   IsTimeoutError (final r) = false ∧ timeoutCnt (final r) = 10 ∧
   reconnects (effects (trace r)) = 0%nat).
Proof.
  split.
  - destruct (timeout_decided_by_message utcDate arm sampleInverter
                (mkReadVars "normal" false 10) "2024-03-15 10:30:00"
                (mkError "*net.OpError" "request timed out") None None None)
      as (Hi & _ & Hc & Hr & _).
    split; [by apply Hi|]. split; [exact Hc | exact Hr].
  - destruct (timeout_decided_by_message utcDate arm sampleInverter
                (mkReadVars "normal" false 10) "2024-03-15 10:30:00"
                (Errorf "read: " ErrRequestTimedOut) None None None)
      as (Hi & _ & Hc & Hr & _).
    split; [|split; [exact Hc | exact Hr]].
    apply not_true_is_false. intros H. apply Hi in H. discriminate H.
Defined.

(** C2, as amended: from a counter at 0 and a last observed state
    other than 'waiting', eleven consecutive timeouts reconnect once,
    at the eleventh, the first ten not at all; the reconnect does not
    reset the counter, which is 11 after it whatever [Close],
    [modbus.NewClient] and [Open] answer, so a twelfth consecutive
    timeout reconnects a second time. *)
Theorem reconnect_keeps_counter (Date : Z → Z → Z → Z → Z → Z → Z → Time)
    (a : Arch) (i : Inverter) (v : ReadVars) (ticks : list Tick) (t12 : Tick) :
  Forall isTimeoutTick ticks → length ticks = 11%nat → isTimeoutTick t12 →
  lastInverterState v ≠ "waiting" → timeoutCnt v = 0 →
  reconnects (effects (trace (ReadLoop Date a i (take 10 ticks) v))) = 0%nat ∧
  reconnects (effects (trace (ReadLoop Date a i ticks v))) = 1%nat ∧
  timeoutCnt (final (ReadLoop Date a i ticks v)) = 11 ∧
  reconnects (effects (trace (ReadLoop Date a i (ticks ++ [t12]) v))) = 2%nat.
Proof.
  intros Hall Hlen H12 Hw Hc.
  destruct (ReadLoop_timeouts Date a i (take 10 ticks) v) as (_ & _ & _ & R10);
    [by apply Forall_take | done | lia | rewrite length_take; lia |].
  destruct (ReadLoop_timeouts Date a i ticks v) as (_ & _ & C11 & R11);
    [done | done | lia | lia |].
  destruct (ReadLoop_timeouts Date a i (ticks ++ [t12]) v) as (_ & _ & _ & R12);
    [apply Forall_app; split; [done | by apply Forall_singleton]
    | done | lia | rewrite length_app; cbn [length]; lia |].
  rewrite R10, R11, C11, R12, length_take, length_app, Hlen, Hc.
  by vm_compute.
Qed.

Lemma reconnect_keeps_counter_witness :
  let run n := ReadLoop utcDate arm sampleInverter (replicate n timeoutTick) normalVars in
  reconnects (effects (trace (run 10%nat))) = 0%nat ∧
  reconnects (effects (trace (run 11%nat))) = 1%nat ∧
  timeoutCnt (final (run 11%nat)) = 11 ∧
  reconnects (effects (trace (run 12%nat))) = 2%nat.
Proof.
  apply (reconnect_keeps_counter utcDate arm sampleInverter normalVars
           (replicate 11 timeoutTick) timeoutTick).
  - apply Forall_replicate. reflexivity.
  - reflexivity.
  - reflexivity.
  - discriminate.
  - reflexivity.
Defined.

(** C2, as stated, fails: after eleven consecutive timeouts in state
    'normal' the counter is 11, not 0, and the twelfth timeout
    reconnects again. *)
Lemma reconnect_reset_counterexample :
  let run n := ReadLoop utcDate amd64 sampleInverter (replicate n timeoutTick) normalVars in
  timeoutCnt (final (run 11%nat)) = 11 ∧
  reconnects (effects (trace (run 12%nat))) = 2%nat ∧
  ¬ (reconnects (effects (trace (run 11%nat))) = 1%nat ∧
     timeoutCnt (final (run 11%nat)) = 0 ∧
     reconnects (effects (trace (run 12%nat))) = 1%nat).
Proof.
  cbv zeta. split; [by vm_compute|]. split; [by vm_compute|].
  intros (_ & H & _). vm_compute in H. discriminate H.
Qed.

(** ** The consumer loop and the state-change notices *)

Lemma ReadIter_ok (Date : Z → Z → Z → Z → Z → Z → Z → Time)
    (a : Arch) (i : Inverter) (v : ReadVars) (now : string) (data : list Z)
    (closeAns newAns openAns : option error) :
  ReadIter Date a i (StatsTick now (inl data) closeAns newAns openAns) v =
    match decodeStats now data with
    | Some stats =>
        ([(v, ESend stats)], mkReadVars (State stats) (IsTimeoutError v) 0, Continue)
    | None => ([], v, Crash)
    end.
Proof.
  unfold ReadIter, getStats. by destruct (decodeStats now data).
Qed.

Lemma mainIter_msg (topic : string) (last : string) (m : Stats) (now : string) :
  let r := mainIter topic (Msg m now) last in
  value r = Go_on ∧
  final r = State m ∧
  notices (trace r) =
    (if bool_decide (State m ≠ last)
     then [(last, InverterState.mk (State m) now)] else []).
Proof.
  unfold mainIter, json_Marshal, Publish, bind, get, put, emit, ret.
  cbv beta iota zeta.
  destruct (decide (last = State m)) as [->|Hne].
  - rewrite (bool_decide_eq_false_2 (State m ≠ State m)) by (intros H; by apply H).
    done.
  - rewrite (bool_decide_eq_true_2 (last ≠ State m)) by done.
    rewrite (bool_decide_eq_true_2 (State m ≠ last)) by done.
    done.
Qed.

Lemma mainLoop_received_app (topic : string) (msgs : list (Stats * string))
    (evs : list MainEvent) (l0 : string) :
  let r1 := mainLoop topic (received msgs) l0 in
  let r2 := mainLoop topic evs (labelAfter l0 msgs) in
  final r1 = labelAfter l0 msgs ∧
  mainLoop topic (received msgs ++ evs) l0 = (trace r1 ++ trace r2, final r2, value r2).
Proof.
  revert l0. induction msgs as [|[m now] msgs IH]; intros l0.
  - cbn. split; [done|]. by destruct (mainLoop topic evs l0) as [[t s] []].
  - destruct (mainIter_msg topic l0 m now) as (Hv & Hf & _).
    destruct (IH (State m)) as [IH1 IH2].
    assert (labelAfter l0 ((m, now) :: msgs) = labelAfter (State m) msgs) as ->.
    { unfold labelAfter. destruct msgs as [|m' msgs]; [done|].
      rewrite last_cons_cons.
      destruct (last (m' :: msgs)) eqn:E; [done|]. by apply last_None in E. }
    cbv zeta.
    change (received ((m, now) :: msgs) ++ evs)
      with (Msg m now :: (received msgs ++ evs)).
    change (received ((m, now) :: msgs)) with (Msg m now :: received msgs).
    cbn [mainLoop]. unfold bind.
    destruct (mainIter topic (Msg m now) l0) as [[t1 s1] n1].
    cbn [value final fst snd] in Hv, Hf. subst n1 s1.
    rewrite IH2.
    destruct (mainLoop topic (received msgs) (State m)) as [[t2 s2] n2].
    cbn [trace final value fst snd] in *.
    split; [done|]. by rewrite app_assoc.
Qed.

(** C3: let the records received by [main] be [msgs1], then [m], then
    [msgs2].  When [m] arrives the stored label is the label of the
    record before it, 'waiting' if there is none.  Handling [m]
    publishes a state notice exactly when the label of [m] differs from
    that stored label; the notice carries the label of [m], and the
    stored label at the time of the publication is still the old one;
    after the handling it is the label of [m].  On its side [Read]
    sends each decoded record before it updates its own
    [lastInverterState]. *)
Theorem notice_iff_label_changes (topic : string)
    (msgs1 : list (Stats * string)) (m : Stats) (now : string)
    (msgs2 : list (Stats * string)) :
  let prev := prevLabel msgs1 in
  let r1 := mainRun topic (received msgs1) in
  let r := mainIter topic (Msg m now) prev in
  let r2 := mainLoop topic (received msgs2) (State m) in
  prevLabel [] = "waiting" ∧
  final r1 = prev ∧
  trace (mainRun topic (received (msgs1 ++ (m, now) :: msgs2)))
    = trace r1 ++ trace r ++ trace r2 ∧
  notices (trace r) =
    (if bool_decide (State m ≠ prev)
     then [(prev, InverterState.mk (State m) now)] else []) ∧
  final r = State m ∧
  (∀ Date a i v data closeAns newAns openAns,
     ReadIter Date a i (StatsTick now (inl data) closeAns newAns openAns) v =
       match decodeStats now data with
       | Some stats =>
           ([(v, ESend stats)],
            mkReadVars (State stats) (IsTimeoutError v) 0, Continue)
       | None => ([], v, Crash)
       end).
Proof.
  intros prev r1 r r2. subst prev r1 r r2.
  destruct (mainIter_msg topic (prevLabel msgs1) m now) as (Hv & Hf & Hn).
  split_and!; try done.
  - apply mainLoop_received_app with (evs := []).
  - assert (received (msgs1 ++ (m, now) :: msgs2)
            = received msgs1 ++ Msg m now :: received msgs2) as ->
      by apply map_app.
    unfold mainRun.
    destruct (mainLoop_received_app topic msgs1
                (Msg m now :: received msgs2) (index InverterStateCodes 0))
      as [_ ->].
    cbn [trace fst]. f_equal.
    fold (prevLabel msgs1).
    cbn [mainLoop]. unfold bind.
    destruct (mainIter topic (Msg m now) (prevLabel msgs1)) as [[t1 s1] n1].
    cbn [value final fst snd] in Hv, Hf. subst n1 s1.
    by destruct (mainLoop topic (received msgs2) (State m)) as [[t2 s2] n2].
  - intros. apply ReadIter_ok.
Qed.

Lemma notice_iff_label_changes_witness :
  prevLabel [(normalStats, "2024-03-15 10:30:00")] = "normal" ∧
  notices (trace (mainIter "growatt" (Msg waitingStats "2024-03-15 10:30:02") "normal"))
    = [("normal", InverterState.mk "waiting" "2024-03-15 10:30:02")] ∧
  final (mainIter "growatt" (Msg waitingStats "2024-03-15 10:30:02") "normal")
    = "waiting".
Proof.
  destruct (notice_iff_label_changes "growatt"
              [(normalStats, "2024-03-15 10:30:00")]
              waitingStats "2024-03-15 10:30:02" [])
    as (_ & _ & _ & Hn & Hf & _).
  split; [reflexivity|]. split; [exact Hn | exact Hf].
Defined.

(** ** The threshold in floating point *)

Example exceedsFloat_threshold :
  exceedsFloat 29999999999 = false ∧
  exceedsFloat 30000000000 = false ∧
  exceedsFloat 30000000001 = true ∧
  exceedsFloat (-30000000000) = false ∧
  exceedsFloat (-30000000001) = true.
Proof. by vm_compute. Qed.

(** ** The scenarios of the specification *)

Example scenario_power :
  decodeStats "2024-03-15 10:30:00" (<[2%nat := 1500]> (<[0%nat := 1]> zeroBlock))
    = Some normalStats ∧
  State normalStats = "normal" ∧ PVInputPower normalStats = 150.
Proof. split; [by apply decodeStats_41 | by vm_compute]. Qed.

Example scenario_clock_within_threshold :
  let r := CheckSetTime utcDate (inl [2024; 3; 15; 10; 30; 0])
             (utcDate 2024 3 15 10 30 5 0) (λ _ _, None) tt in
  Sub (utcDate 2024 3 15 10 30 5 0) (utcDate 2024 3 15 10 30 0 0) = 5 * time_Second ∧
  writes (effects (trace r)) = [] ∧ value r = Ok tt.
Proof. by vm_compute. Qed.

Example scenario_idempotent :
  let synced := utcDate 2024 3 15 10 31 40 0 in
  let r1 := CheckSetTime utcDate (inl [2024; 3; 15; 10; 30; 0]) synced (λ _ _, None) tt in
  let r2 := CheckSetTime utcDate (inl [2024; 3; 15; 10; 31; 40]) synced (λ _ _, None) tt in
  writes (effects (trace r1)) = [(50, 40); (49, 31)] ∧
  writes (effects (trace r2)) = [].
Proof. by vm_compute. Qed.

(** * Further properties *)

(** ** The decoder *)

Lemma decodeStats_ge (now : string) (data : list Z) :
  (41 <= length data)%nat → decodeStats now data = Some (decoded now data).
Proof.
  intros H. unfold decodeStats.
  repeat (rewrite lookup_word by lia; simpl).
  reflexivity.
Qed.

(** X1: [getStats] panics on an index exactly when the block has fewer
    than 41 words; a longer block decodes. *)
Theorem getStats_panics_iff_short (now : string) (data : list Z) :
  getStats now (inl data) = Panic ↔ (length data < 41)%nat.
Proof.
  unfold getStats. split.
  - intros H. destruct (decide (length data < 41)%nat) as [|Hge]; [done|].
    rewrite decodeStats_ge in H by lia. discriminate H.
  - intros H. by rewrite decodeStats_short.
Qed.

Lemma lor_shiftl_bound (h l : Z) :
  is_uint16 h → is_uint16 l → 0 <= Z.lor (Z.shiftl h 16) l < 2 ^ 32.
Proof.
  unfold is_uint16. intros Hh Hl.
  assert (0 <= Z.shiftl h 16) as H0 by (apply Z.shiftl_nonneg; lia).
  split; [apply Z.lor_nonneg; lia|].
  pose proof (Z.add_lor_land (Z.shiftl h 16) l) as Hadd.
  assert (0 <= Z.land (Z.shiftl h 16) l) by (apply Z.land_nonneg; lia).
  rewrite Z.shiftl_mul_pow2 in * by lia. lia.
Qed.

Lemma pair32_bound (h l : Z) :
  is_uint16 h → is_uint16 l →
  0 <= or32 (shl32 (uint32 h) 16) (uint32 l) < 2 ^ 32.
Proof.
  intros Hh Hl. unfold or32. rewrite shl32_uint16 by done.
  rewrite (uint32_small l) by (unfold is_uint16 in Hl; lia).
  by apply lor_shiftl_bound.
Qed.

Lemma udiv_bound (x k b : Z) : 0 <= x < b → 0 < k → 0 <= udiv x k < b.
Proof.
  intros Hx Hk. unfold udiv. split; [apply Z.div_pos; lia|].
  apply Z.le_lt_trans with x; [|lia].
  apply Z.div_le_upper_bound; [lia|]. nia.
Qed.

(** X2: on a block of 41 words every numeric field of the decoded
    record fits the type of the field, [uint16] or [uint32]: none is
    negative and none exceeds the range. *)
Theorem decodeStats_fits (now : string) (data : list Z) :
  length data = 41%nat → Forall is_uint16 data →
  ∃ st, decodeStats now data = Some st ∧ fitsTypes st.
Proof.
  intros Hlen Hw. exists (decoded now data).
  split; [by apply decodeStats_41|].
  assert (∀ n, is_uint16 (word data n)) as W by (intros n; by apply word_uint16).
  unfold fitsTypes, decoded. cbn -[Z.pow]. split.
  - repeat (apply Forall_cons; split; [try (apply udiv_bound; [apply W | lia]) |]);
      try apply W. apply Forall_nil_2.
  - repeat (apply Forall_cons; split;
            [try (apply udiv_bound; [apply pair32_bound; apply W | lia]) |]);
      try (unfold mul32, uint32; apply Z.mod_pos_bound; lia).
    apply Forall_nil_2.
Qed.

Lemma decodeStats_fits_witness :
  ∃ st, decodeStats "" (<[26%nat := 65535]> zeroBlock) = Some st ∧ fitsTypes st.
Proof.
  apply decodeStats_fits; [reflexivity|].
  apply Forall_forall. intros x Hx.
  apply list_elem_of_In in Hx. vm_compute in Hx.
  unfold is_uint16. intuition lia.
Defined.

Lemma index_labels (code : Z) : index InverterStateCodes code ∈ labels.
Proof.
  unfold labels.
  destruct (decide (code = 0)) as [->|H0]; [set_solver|].
  destruct (decide (code = 1)) as [->|H1]; [set_solver|].
  destruct (decide (code = 3)) as [->|H3]; [set_solver|].
  rewrite index_unknown by done. set_solver.
Qed.

(** X3: whatever the words of the block, the label of a decoded record
    is 'waiting', 'normal', 'fault' or the empty string. *)
Theorem decodeStats_label (now : string) (data : list Z) (st : Stats) :
  decodeStats now data = Some st → State st ∈ labels.
Proof.
  intros H.
  destruct (decide (41 <= length data)%nat) as [Hge|Hlt].
  - rewrite decodeStats_ge in H by done. injection H as <-. apply index_labels.
  - rewrite decodeStats_short in H by lia. discriminate H.
Qed.

Lemma decodeStats_label_witness :
  State (decoded "" (<[0%nat := 65535]> zeroBlock)) ∈ labels.
Proof.
  apply (decodeStats_label "" (<[0%nat := 65535]> zeroBlock)).
  by apply decodeStats_41.
Defined.

(** X4: word 6, words 33 to 39 and any word after word 40 have no
    influence on the decoded record: changing one of them changes
    nothing. *)
Theorem decodeStats_unread (now : string) (data : list Z) (n : nat) (x : Z) :
  unread n → decodeStats now (<[n := x]> data) = decodeStats now data.
Proof.
  intros Hn. unfold unread in Hn. unfold decodeStats.
  by rewrite !list_lookup_insert_ne by lia.
Qed.

Lemma decodeStats_unread_witness :
  decodeStats "" (<[6%nat := 12345]> zeroBlock) = decodeStats "" zeroBlock.
Proof.
  apply decodeStats_unread. left. reflexivity.
Defined.

(** X5: as long as the combined words times 100 stay below 2^32, that
    is for combined words up to 42949672, the energy totals are exactly
    that product. *)
Theorem decodeStats_totals_exact (now : string) (data : list Z) :
  length data = 41%nat → Forall is_uint16 data →
  dword data 26 <= 42949672 → dword data 28 <= 42949672 →
  ∃ st, decodeStats now data = Some st ∧ totalsAsStated data st.
Proof.
  intros Hlen Hw H26 H28. exists (decoded now data).
  split; [by apply decodeStats_41|].
  pose proof (dword_nonneg data 26 Hw). pose proof (dword_nonneg data 28 Hw).
  unfold totalsAsStated, decoded; cbn [TotalTodayWatt TotalAllTimeWatt].
  rewrite !pair32_dword by done.
  unfold mul32. rewrite !uint32_small by lia. done.
Qed.

Lemma decodeStats_totals_exact_witness :
  ∃ st, decodeStats "" (<[27%nat := 1500]> zeroBlock) = Some st ∧
        totalsAsStated (<[27%nat := 1500]> zeroBlock) st.
Proof.
  apply decodeStats_totals_exact;
    [reflexivity | | vm_compute; discriminate | vm_compute; discriminate].
  apply Forall_forall. intros x Hx.
  apply list_elem_of_In in Hx. vm_compute in Hx.
  unfold is_uint16. intuition lia.
Defined.

(** ** The clock synchroniser *)

Lemma setTime_writes_all {S} (wr : Z → Z → option error)
    (inverterTime newTime : Time) (s : S) :
  (∀ x, x ∈ due inverterTime newTime → x.1 ≠ 45 → wr x.1 x.2 = None) →
  writes (effects (trace (setTime wr inverterTime newTime s)))
    = due inverterTime newTime ∧
  value (setTime wr inverterTime newTime s) = None.
Proof.
  intros H.
  destruct (setTime_writeBack wr inverterTime newTime s) as (Hc & Hv & _).
  destruct (writeBack_no_abort wr (due inverterTime newTime) H) as [Hw Hr].
  rewrite <- writes_core, Hc, Hv. by split.
Qed.

Lemma due_synchronises (regs : gmap Z Z) (inverterTime newTime : Time) :
  shows regs inverterTime → representable newTime →
  shows (applyWrites (due inverterTime newTime) regs) newTime.
Proof.
  unfold shows, representable, clockFields, is_uint16.
  rewrite !Forall_cons, !Forall_nil. cbn [fst snd].
  intros (Hs & Hmi & Hh & Hd & Hmo & Hy & _) (Rs & Rmi & Rh & Rd & Rmo & Ry & _).
  rewrite due_app. unfold uint16.
  rewrite !Z.mod_small by lia.
  repeat case_bool_decide; cbn [app applyWrites foldl fst snd];
    repeat match goal with
           | H : ¬ (?a ≠ ?b) |- _ => apply dec_stable in H
           end;
    split_and!; try done; simplify_map_eq; congruence.
Qed.

(** X6: a pass of [setTime] all of whose writes the device accepts
    brings the clock registers to the host time: if the registers held
    the fields of the device time before, they hold the fields of the
    host time after the writes of the pass. *)
Theorem setTime_synchronises {S} (wr : Z → Z → option error)
    (regs : gmap Z Z) (inverterTime newTime : Time) (s : S) :
  shows regs inverterTime → representable newTime →
  (∀ x, x ∈ due inverterTime newTime → wr x.1 x.2 = None) →
  shows (applyWrites (writes (effects (trace (setTime wr inverterTime newTime s)))) regs)
    newTime ∧
  value (setTime wr inverterTime newTime s) = None.
Proof.
  intros Hs Hr Hok.
  destruct (setTime_writes_all wr inverterTime newTime s) as [-> ->];
    [intros x Hx _; by apply Hok|].
  split; [by apply due_synchronises | done].
Qed.

Lemma setTime_synchronises_witness :
  shows (applyWrites
           (writes (effects (trace (setTime (λ _ _, None)
                                      (utcDate 2024 3 15 10 30 0 0)
                                      (utcDate 2024 3 15 11 30 31 0) tt))))
           sampleRegs)
    (utcDate 2024 3 15 11 30 31 0) ∧
  value (setTime (λ _ _, None) (utcDate 2024 3 15 10 30 0 0)
           (utcDate 2024 3 15 11 30 31 0) tt) = None.
Proof.
  apply setTime_synchronises.
  - repeat constructor.
  - repeat constructor; vm_compute; discriminate.
  - reflexivity.
Defined.

Lemma due_shape (inverterTime newTime : Time) :
  (length (due inverterTime newTime) <= 6)%nat ∧
  Forall (λ w, 45 <= w.1 <= 50 ∧ is_uint16 w.2) (due inverterTime newTime) ∧
  NoDup (due inverterTime newTime).*1.
Proof.
  assert (∀ z, is_uint16 (uint16 z)) as U
    by (intros z; unfold is_uint16, uint16; apply Z.mod_pos_bound; lia).
  rewrite due_app.
  repeat case_bool_decide; cbn [app length fmap list_fmap fst];
    (split_and!;
     [lia
     | repeat (apply Forall_cons; split; [split; [cbn; lia | apply U] |]); apply Forall_nil_2
     | apply (bool_decide_unpack _); vm_compute; exact I]).
Qed.

(** X7: a pass of [setTime] writes at most six registers, each of them
    one of the registers 45 to 50 and none of them twice, and every
    value it writes is a 16-bit value. *)
Theorem setTime_writes_shape {S} (wr : Z → Z → option error)
    (inverterTime newTime : Time) (s : S) :
  let ws := writes (effects (trace (setTime wr inverterTime newTime s))) in
  (length ws <= 6)%nat ∧
  Forall (λ w, 45 <= w.1 <= 50 ∧ is_uint16 w.2) ws ∧
  NoDup ws.*1.
Proof.
  intros ws. subst ws.
  destruct (setTime_writeBack wr inverterTime newTime s) as (Hc & _ & _).
  rewrite <- writes_core, Hc.
  destruct (writeBack_prefix wr (due inverterTime newTime)) as [k Hk].
  destruct (due_shape inverterTime newTime) as (Hl & Hf & Hn).
  rewrite Hk in Hl, Hf, Hn.
  rewrite length_app in Hl. rewrite Forall_app in Hf. rewrite fmap_app in Hn.
  apply NoDup_app in Hn as (Hn & _ & _).
  split_and!; [lia | tauto | done].
Qed.

Lemma writeBack_isClock (wr : Z → Z → option error) (l : list (Z * Z)) :
  Forall (λ e, isClock e = true) (writeBack wr l).1.
Proof.
  induction l as [|[addr v] l IH]; [by apply Forall_nil_2|].
  cbn [writeBack]. destruct (writeBack wr l) as [w r]. cbn [fst] in IH.
  destruct (wr addr v) as [err|]; [destruct (addr =? 45)|]; cbn [fst];
    repeat (apply Forall_cons; split; [done|]); done || apply Forall_nil_2.
Qed.

(** [setTime] logs and writes registers and does nothing else, and it
    leaves the variables of its caller alone. *)
Lemma setTime_isClock {S} (wr : Z → Z → option error)
    (inverterTime newTime : Time) (s : S) :
  Forall (λ x, isClock x.2 = true) (trace (setTime wr inverterTime newTime s)) ∧
  final (setTime wr inverterTime newTime s) = s.
Proof.
  destruct (setTime_writeBack wr inverterTime newTime s) as (Hc & _ & Hf).
  split; [|done].
  pose proof (writeBack_isClock wr (due inverterTime newTime)) as Hw.
  rewrite <- Hc in Hw. unfold core, effects in Hw.
  apply Forall_forall. intros [v e] Hx. cbn [snd].
  destruct (isInfo e) eqn:Hi.
  - by destruct e as [[] ? ?| | | | | | |].
  - rewrite Forall_forall in Hw. apply Hw.
    apply list_elem_of_filter. split; [done|].
    apply list_elem_of_fmap. by exists (v, e).
Qed.

Section ClockFacts.
Variable Date : Z → Z → Z → Z → Z → Z → Z → Time.

(** [CheckSetTime] logs and writes registers and does nothing else,
    and it leaves the variables of its caller alone. *)
Lemma CheckSetTime_isClock {S} (rd : list Z + error) (now : Time)
    (wr : Z → Z → option error) (s : S) :
  Forall (λ x, isClock x.2 = true) (trace (CheckSetTime Date rd now wr s)) ∧
  final (CheckSetTime Date rd now wr s) = s.
Proof.
  unfold CheckSetTime, GetTime.
  destruct rd as [data|err]; [|by repeat constructor].
  destruct (_ ≫= _) as [t|]; [|by repeat constructor].
  unfold bind, emit, ret. cbv beta iota zeta.
  destruct (negb _); [|by repeat constructor].
  destruct (setTime_isClock wr t now s) as [Hk Hf].
  destruct (setTime wr t now s) as [[tr s'] [err|]];
    cbn [trace final fst snd] in *; subst s';
    (split; [|done]); cbn [app]; rewrite !app_nil_r;
    repeat (constructor; [reflexivity|]); exact Hk.
Qed.

(** The answer of the six clock registers makes [GetTime] succeed. *)
Lemma GetTime_six {S} (data : list Z) (s : S) :
  (6 <= length data)%nat →
  ∃ t, GetTime Date (inl data) s =
         ([(s, ELog Debug "Current time on inverter is %v" [ATime t])], s, Ok t).
Proof.
  intros H.
  destruct data as [|y [|mo [|d [|h [|mi [|sec rest]]]]]]; cbn in H; try lia.
  eexists. reflexivity.
Qed.

(** [CheckSetTime] panics exactly when the read answers fewer than six
    words. *)
Lemma CheckSetTime_panic_iff {S} (rd : list Z + error) (now : Time)
    (wr : Z → Z → option error) (s : S) :
  value (CheckSetTime Date rd now wr s) = Panic ↔
  ∃ data, rd = inl data ∧ (length data < 6)%nat.
Proof.
  destruct rd as [data|err].
  - destruct (decide (6 <= length data)%nat) as [Hge|Hlt].
    + split; [|intros (d & [= <-] & ?); lia].
      unfold CheckSetTime, bind.
      destruct (GetTime_six data s Hge) as [t ->]. cbv beta iota zeta.
      destruct (negb _); [|done]. unfold bind, emit.
      by destruct (setTime wr t now s) as [[tr s'] [e|]].
    + split; [intros _; exists data; split; [done|lia]|]. intros _.
      unfold CheckSetTime, GetTime, bind.
      destruct data as [|y [|mo [|d [|h [|mi [|sec rest]]]]]];
        cbn in Hlt; try lia; done.
  - split; [done|]. by intros (d & [=] & _).
Qed.

(** X8: a device that rejects the write of the year, as some firmware
    does, never makes [CheckSetTime] fail: with the six clock registers
    read and every other write accepted, [CheckSetTime] returns nil
    whatever the two times are. *)
Theorem CheckSetTime_year_rejected {S} (data : list Z) (now : Time)
    (wr : Z → Z → option error) (s : S) :
  (6 <= length data)%nat →
  (∀ addr v, addr ≠ 45 → wr addr v = None) →
  value (CheckSetTime Date (inl data) now wr s) = Ok tt.
Proof.
  intros Hlen Hwr. unfold CheckSetTime.
  destruct (GetTime_six data s Hlen) as [t Ht].
  unfold bind. rewrite Ht. cbv beta iota zeta.
  destruct (negb _); [|done].
  unfold bind, emit. cbv beta iota zeta.
  destruct (setTime_writes_all wr t now s) as [_ Hv];
    [intros x _ Hx; by apply Hwr|].
  destruct (setTime wr t now s) as [[tr s'] r]. cbn [value snd] in Hv. by subst r.
Qed.
End ClockFacts.

Lemma CheckSetTime_year_rejected_witness :
  value (CheckSetTime utcDate (inl [2023; 3; 15; 10; 30; 0])
           (utcDate 2024 3 15 10 31 40 0) (rejectsYear ErrRequestTimedOut) tt)
    = Ok tt.
Proof.
  apply CheckSetTime_year_rejected.
  - cbn. lia.
  - intros addr v Ha. unfold rejectsYear. apply Z.eqb_neq in Ha. by rewrite Ha.
Defined.

(** ** The poll loop as a whole *)

Section PollFacts.
Variable Date : Z → Z → Z → Z → Z → Z → Z → Time.
Variable a : Arch.
Variable i : Inverter.

Lemma ReadLoop_unfold (t : Tick) (ticks : list Tick) (v : ReadVars) :
  ReadLoop Date a i (t :: ticks) v =
    let r1 := ReadIter Date a i t v in
    match value r1 with
    | Continue =>
        let r2 := ReadLoop Date a i ticks (final r1) in
        (trace r1 ++ trace r2, final r2, value r2)
    | Return err => (trace r1, final r1, Some (Ok err))
    | Crash => (trace r1, final r1, Some Panic)
    end.
Proof.
  cbn [ReadLoop]. unfold bind.
  destruct (ReadIter Date a i t v) as [[t1 s1] [|err|]];
    cbn [trace final value fst snd ret]; unfold ret; rewrite ?app_nil_r; try done.
  by destruct (ReadLoop Date a i ticks s1) as [[t2 s2] r2].
Qed.

Lemma Connect_effects {S} (newAns openAns : option error) (s : S) :
  Forall (λ x, x.1 = s ∧
               match x.2 with
               | ELog _ _ _ | ENewClient _ _ | EOpen => True
               | _ => False
               end)
    (trace (Connect a i newAns openAns s)).
Proof.
  unfold Connect, bind, emit, ret.
  destruct newAns as [e|]; [|destruct openAns as [e|]];
    cbn; repeat (constructor; [done|]); constructor.
Qed.

(** The effects of a telemetry tick whose read fails. *)
Lemma ReadIter_error_effects (v : ReadVars) (now : string) (err : error)
    (closeAns newAns openAns : option error) :
  Forall errorTickEffect
    (trace (ReadIter Date a i (StatsTick now (inr err) closeAns newAns openAns) v)).
Proof.
  unfold ReadIter, getStats.
  destruct v as [l t c].
  unfold bind, get, put, emit, ret, setIsTimeoutError, setTimeoutCnt.
  destruct (bool_decide (Error err = "request timed out"));
    cbv beta iota zeta; cbn [lastInverterState IsTimeoutError timeoutCnt];
    destruct (bool_decide (l = index InverterStateCodes 0)); cbn [andb].
  - cbn. by repeat constructor.
  - cbn [lastInverterState IsTimeoutError timeoutCnt].
    destruct (10 <? wrapInt a (c + 1)) eqn:Hc.
    + apply Z.ltb_lt in Hc.
      unfold Disconnect, bind, emit, ret. cbv beta iota zeta.
      pose proof (Connect_effects newAns openAns
                    (mkReadVars l true (wrapInt a (c + 1)))) as Hk.
      destruct (Connect a i newAns openAns (mkReadVars l true (wrapInt a (c + 1))))
        as [[tc sc] rc].
      cbn [trace value final fst snd app] in *. rewrite !app_nil_r.
      repeat (constructor; [done|]).
      eapply Forall_impl; [exact Hk|].
      intros [v' e] [_ He]. unfold errorTickEffect. cbn [fst snd] in *.
      by destruct e.
    + cbn. by repeat constructor.
  - cbn. by repeat constructor.
  - cbn. by repeat constructor.
Qed.

(** What each kind of tick sends on the channel. *)
Lemma ReadIter_sent (t : Tick) (v : ReadVars) :
  sentRecords (effects (trace (ReadIter Date a i t v))) =
    match okStats t with Some st => [st] | None => [] end.
Proof.
  destruct t as [now [data|err] cl nc op|rd now wr|e cl].
  - rewrite ReadIter_ok. cbn [okStats]. by destruct (decodeStats now data).
  - pose proof (ReadIter_error_effects v now err cl nc op) as H.
    cbn [okStats]. unfold effects.
    induction H as [|[v' e] tr He _ IH]; [done|].
    cbn [fmap list_fmap]. unfold sentRecords in *. cbn [omap list_omap snd].
    unfold errorTickEffect in He. cbn [snd] in He.
    by destruct e.
  - cbn [okStats ReadIter]. unfold bind.
    destruct (CheckSetTime_isClock Date rd now wr v) as [H _].
    destruct (CheckSetTime Date rd now wr v) as [[tr s'] r].
    cbn [trace fst] in H.
    assert (sentRecords (effects tr) = []) as Hs.
    { unfold effects. induction H as [|[v' e] tr' He _ IH]; [done|].
      cbn [fmap list_fmap]. unfold sentRecords in *. cbn [omap list_omap snd].
      cbn [snd] in He. by destruct e. }
    destruct r as [[]|err|]; unfold emit, ret; cbn [trace effects fst snd];
      unfold effects in *; rewrite ?fmap_app, ?app_nil_r;
      unfold sentRecords in *; rewrite ?omap_app, ?Hs; done.
  - done.
Qed.

(** X9: as long as the loop goes on, the records sent on the channel
    are the records decoded from the telemetry ticks whose read
    succeeded, one for each and in the order of the ticks: none is
    dropped, repeated or invented. *)
Theorem ReadLoop_sends_decoded (ticks : list Tick) (v : ReadVars) :
  value (ReadLoop Date a i ticks v) = None →
  sentRecords (effects (trace (ReadLoop Date a i ticks v))) = omap okStats ticks.
Proof.
  revert v. induction ticks as [|t ticks IH]; intros v Hv; [done|].
  rewrite ReadLoop_unfold in Hv |- *. cbv zeta in *.
  pose proof (ReadIter_sent t v) as Hs.
  destruct (value (ReadIter Date a i t v)); [|done..].
  cbn [value snd trace fst] in *.
  unfold effects in *. rewrite fmap_app. unfold sentRecords in *.
  rewrite omap_app, Hs, (IH _ Hv). cbn [omap list_omap].
  by destruct (okStats t).
Qed.

Lemma ReadIter_closes (t : Tick) (v : ReadVars) :
  isCtxDone t = false →
  Forall closesAboveTen (trace (ReadIter Date a i t v)).
Proof.
  intros Ht. destruct t as [now [data|err] cl nc op|rd now wr|e cl]; [| | |done].
  - rewrite ReadIter_ok. destruct (decodeStats now data); by repeat constructor.
  - eapply Forall_impl; [apply ReadIter_error_effects|].
    intros [v' e] He Hc. cbn [snd] in Hc. subst e. exact He.
  - cbn [ReadIter]. unfold bind.
    destruct (CheckSetTime_isClock Date rd now wr v) as [H _].
    destruct (CheckSetTime Date rd now wr v) as [[tr s'] r].
    cbn [trace fst] in H.
    assert (Forall closesAboveTen tr) as Hk.
    { eapply Forall_impl; [exact H|]. intros [v' e] He Hc.
      cbn [snd] in *. by subst e. }
    destruct r as [[]|err|]; unfold emit, ret; cbn [trace fst snd];
      rewrite ?app_nil_r; try done.
    apply Forall_app. split; [done|]. by repeat constructor.
Qed.

(** X10: short of a cancellation, the loop closes the transport only
    with the timeout counter above ten: every [client.Close()] of a run
    without cancellation happens at a moment when [timeoutCnt] is
    greater than 10. *)
Theorem ReadLoop_closes_above_ten (ticks : list Tick) (v : ReadVars) :
  Forall (λ t, isCtxDone t = false) ticks →
  Forall closesAboveTen (trace (ReadLoop Date a i ticks v)).
Proof.
  revert v. induction ticks as [|t ticks IH]; intros v Hall; [by constructor|].
  apply Forall_cons in Hall as [Ht Hall].
  rewrite ReadLoop_unfold. cbv zeta.
  pose proof (ReadIter_closes t v Ht) as Hc.
  destruct (value (ReadIter Date a i t v)); cbn [trace fst]; [|done..].
  apply Forall_app. split; [done | by apply IH].
Qed.

Lemma ReadLoop_app (pre ticks : list Tick) (v : ReadVars) :
  value (ReadLoop Date a i pre v) = None →
  let r1 := ReadLoop Date a i pre v in
  let r2 := ReadLoop Date a i ticks (final r1) in
  ReadLoop Date a i (pre ++ ticks) v = (trace r1 ++ trace r2, final r2, value r2).
Proof.
  revert v. induction pre as [|t pre IH]; intros v Hv.
  - cbn. by destruct (ReadLoop Date a i ticks v) as [[t2 s2] r2].
  - cbv zeta. rewrite <- app_comm_cons, !ReadLoop_unfold in *. cbv zeta in *.
    destruct (value (ReadIter Date a i t v)); [|done..].
    cbn [value snd] in Hv. rewrite (IH _ Hv).
    cbn [trace final value fst snd]. by rewrite app_assoc.
Qed.

(** X11: a cancellation ends the loop: when the loop is still going on
    after the ticks before it, the tick of the cancellation logs one
    line, closes the transport once and makes [Read] return
    [ctx.Err()]; no tick after it has any effect and the variables stay
    as they were. *)
Theorem ReadLoop_cancel (pre post : list Tick) (ctxErr : error)
    (closeAns : option error) (v : ReadVars) :
  value (ReadLoop Date a i pre v) = None →
  let r := ReadLoop Date a i pre v in
  ReadLoop Date a i (pre ++ CtxDone ctxErr closeAns :: post) v =
    (trace r ++
       [(final r, ELog Info "Context canceled, stop reading from inverter" []);
        (final r, EClose)],
     final r, Some (Ok ctxErr)).
Proof.
  intros Hv r. subst r. rewrite (ReadLoop_app _ _ _ Hv). cbv zeta.
  by rewrite ReadLoop_unfold.
Qed.

Lemma ReadIter_check_final (rd : list Z + error) (now : Time)
    (wr : Z → Z → option error) (v : ReadVars) :
  final (ReadIter Date a i (CheckTimeTick rd now wr) v) = v.
Proof.
  cbn [ReadIter]. unfold bind.
  destruct (CheckSetTime_isClock Date rd now wr v) as [_ Hf].
  destruct (CheckSetTime Date rd now wr v) as [[tr s'] r].
  cbn [final fst snd] in Hf. subst s'. by destruct r as [[]|err|].
Qed.

(** X12: a clock-check tick, whatever its outcome, leaves the variables
    of the loop as they are and only logs and writes clock registers:
    it sends nothing, pauses nowhere, does not close the transport and
    does not make [Read] return. *)
Theorem ReadIter_check_time (rd : list Z + error) (now : Time)
    (wr : Z → Z → option error) (v : ReadVars) :
  let r := ReadIter Date a i (CheckTimeTick rd now wr) v in
  final r = v ∧
  Forall (λ x, isClock x.2 = true) (trace r) ∧
  (value r = Continue ∨ value r = Crash) ∧
  (value r = Crash ↔ ∃ data, rd = inl data ∧ (length data < 6)%nat).
Proof.
  cbv zeta. cbn [ReadIter]. unfold bind.
  destruct (CheckSetTime_isClock Date rd now wr v) as [Hk Hf].
  pose proof (CheckSetTime_panic_iff Date rd now wr v) as Hp.
  destruct (CheckSetTime Date rd now wr v) as [[tr s'] r].
  cbn [trace final value fst snd] in *. subst s'.
  destruct r as [[]|err|]; unfold emit, ret; cbn [trace final value fst snd];
    rewrite ?app_nil_r.
  - split_and!; [done|done|by left|]. rewrite <- Hp. done.
  - split_and!; [done| |by left|].
    + apply Forall_app. split; [done|]. by repeat constructor.
    + rewrite <- Hp. done.
  - split_and!; [done|done|by right|]. by rewrite <- Hp.
Qed.

(** X13: while the last observed state is 'waiting', timeouts never
    add up: any number of consecutive timeouts pauses one minute each,
    never closes or reopens the transport, and leaves the state and
    the timeout counter as they were. *)
Theorem ReadLoop_dark (ticks : list Tick) (v : ReadVars) :
  Forall isTimeoutTick ticks →
  lastInverterState v = "waiting" →
  let r := ReadLoop Date a i ticks v in
  value r = None ∧
  lastInverterState (final r) = "waiting" ∧
  timeoutCnt (final r) = timeoutCnt v ∧
  sleeps (effects (trace r)) = replicate (length ticks) time_Minute ∧
  reconnects (effects (trace r)) = 0%nat ∧
  Forall (λ x, x.2 ≠ EClose) (trace r).
Proof.
  revert v. induction ticks as [|t ticks IH]; intros v Hall Hw.
  - cbn; split_and!; try done; constructor.
  - apply Forall_cons in Hall as [Ht Hall].
    destruct t as [now [data|err] cl nc op| |]; try done.
    cbn in Ht.
    destruct (ReadIter_error Date a i v now err cl nc op) as (Hv & Hf & Hs & Hr & He).
    rewrite (bool_decide_eq_true_2 _ Ht), (bool_decide_eq_true_2 _ Hw) in Hf, Hs, Hr, He.
    cbn [andb negb] in Hf, Hs, Hr, He. specialize (He eq_refl).
    cbv zeta. rewrite ReadLoop_unfold. cbv zeta. rewrite Hv, Hf.
    destruct (IH (mkReadVars (lastInverterState v) true (timeoutCnt v)) Hall Hw)
      as (IHv & IHl & IHc & IHs & IHr & IHk).
    cbn [trace final value fst snd].
    split_and!; try done.
    + unfold effects, sleeps in *. by rewrite fmap_app, omap_app, Hs, IHs.
    + unfold effects in *. by rewrite fmap_app, Hr, IHr.
    + apply Forall_app. split; [|done].
      unfold effects in He.
      destruct (trace (ReadIter Date a i (StatsTick now (inr err) cl nc op) v))
        as [|[v1 e1] [|[v2 e2] [|? ?]]]; try done.
      injection He as -> ->. by repeat constructor.
Qed.

(** X14: errors other than timeouts never add up either: any number of
    consecutive failed reads with another error text only logs a
    warning each; no pause, no reconnect, and the state and the timeout
    counter stay as they were. *)
Theorem ReadLoop_other_errors (ticks : list Tick) (v : ReadVars) :
  Forall isOtherErrorTick ticks →
  let r := ReadLoop Date a i ticks v in
  value r = None ∧
  lastInverterState (final r) = lastInverterState v ∧
  timeoutCnt (final r) = timeoutCnt v ∧
  sleeps (effects (trace r)) = [] ∧
  reconnects (effects (trace r)) = 0%nat.
Proof.
  revert v. induction ticks as [|t ticks IH]; intros v Hall; [done|].
  apply Forall_cons in Hall as [Ht Hall].
  destruct t as [now [data|err] cl nc op| |]; try done.
  cbn in Ht.
  destruct (ReadIter_error Date a i v now err cl nc op) as (Hv & Hf & Hs & Hr & _).
  rewrite (bool_decide_eq_false_2 _ Ht) in Hf, Hs, Hr.
  cbn [andb negb] in Hf, Hs, Hr.
  cbv zeta. rewrite ReadLoop_unfold. cbv zeta. rewrite Hv, Hf.
  destruct (IH (mkReadVars (lastInverterState v) false (timeoutCnt v)) Hall)
    as (IHv & IHl & IHc & IHs & IHr).
  cbn [trace final value fst snd].
  split_and!; try done.
  - unfold effects, sleeps in *. by rewrite fmap_app, omap_app, Hs, IHs.
  - unfold effects in *. by rewrite fmap_app, Hr, IHr.
Qed.

Lemma ReadIter_invariant (t : Tick) (v : ReadVars) :
  lastInverterState v ∈ labels → 0 <= timeoutCnt v < 2 ^ 31 - 1 →
  lastInverterState (final (ReadIter Date a i t v)) ∈ labels ∧
  0 <= timeoutCnt (final (ReadIter Date a i t v)) <= timeoutCnt v + 1.
Proof.
  intros Hl Hc. destruct t as [now [data|err] cl nc op|rd now wr|e cl].
  - rewrite ReadIter_ok. destruct (decodeStats now data) as [st|] eqn:Hd;
      cbn [final fst snd lastInverterState timeoutCnt]; [|split; [done|lia]].
    split; [|lia].
    destruct (decide (41 <= length data)%nat) as [Hge|Hlt].
    + rewrite decodeStats_ge in Hd by done. injection Hd as <-. apply index_labels.
    + rewrite decodeStats_short in Hd by lia. discriminate Hd.
  - destruct (ReadIter_error Date a i v now err cl nc op) as (_ & -> & _).
    cbn [lastInverterState timeoutCnt]. split; [done|].
    destruct (_ && _); [rewrite wrapInt_small|]; lia.
  - rewrite ReadIter_check_final. split; [done|lia].
  - cbn. split; [done|lia].
Qed.

(** X15: in every run of [Read], however long and whatever happens in
    it, the stored state is one of the labels 'waiting', 'normal',
    'fault' or the empty label, and the timeout counter is never
    negative and never larger than the number of ticks so far. *)
Theorem Read_invariant (ticks : list Tick) (v0 : ReadVars) :
  Z.of_nat (length ticks) < 2 ^ 31 →
  let r := Read Date a i ticks v0 in
  lastInverterState (final r) ∈ labels ∧
  0 <= timeoutCnt (final r) <= Z.of_nat (length ticks).
Proof.
  intros Hlen. cbv zeta. unfold Read, bind, put, emit. cbv beta iota zeta.
  change (index InverterStateCodes 0) with "waiting".
  assert (∀ ticks v k,
            lastInverterState v ∈ labels → 0 <= timeoutCnt v <= k →
            k + Z.of_nat (length ticks) < 2 ^ 31 →
            lastInverterState (final (ReadLoop Date a i ticks v)) ∈ labels ∧
            0 <= timeoutCnt (final (ReadLoop Date a i ticks v))
              <= k + Z.of_nat (length ticks)) as Hloop.
  { clear. induction ticks as [|t ticks IH]; intros v k Hl Hc Hk.
    - cbn. split; [done|lia].
    - rewrite ReadLoop_unfold. cbv zeta. cbn [length] in Hk.
      destruct (ReadIter_invariant t v Hl) as [Hl' Hc']; [lia|].
      destruct (value (ReadIter Date a i t v)); cbn [final fst snd].
      + destruct (IH (final (ReadIter Date a i t v)) (k + 1) Hl') as [H1 H2];
          [lia|lia|]. split; [done|]. cbn [length]. lia.
      + split; [done|]. cbn [length]. lia.
      + split; [done|]. cbn [length]. lia. }
  destruct (Hloop ticks (mkReadVars "waiting" false 0) 0) as [H1 H2];
    [apply list_elem_of_here | cbn; lia | lia |].
  destruct (ReadLoop Date a i ticks (mkReadVars "waiting" false 0)) as [[t2 s2] r2].
  cbn [final fst snd] in *. split; [done|lia].
Qed.
End PollFacts.

Lemma ReadLoop_sends_decoded_witness :
  sentRecords (effects (trace (ReadLoop utcDate arm sampleInverter
                                 [normalTick; timeoutTick; crcTick; waitingTick]
                                 normalVars)))
    = [normalStats; waitingStats].
Proof.
  apply (ReadLoop_sends_decoded utcDate arm sampleInverter
           [normalTick; timeoutTick; crcTick; waitingTick] normalVars).
  reflexivity.
Defined.

Lemma ReadLoop_closes_above_ten_witness :
  Forall closesAboveTen
    (trace (ReadLoop utcDate arm sampleInverter (replicate 12 timeoutTick) normalVars)).
Proof.
  apply ReadLoop_closes_above_ten. apply Forall_replicate. reflexivity.
Defined.

Lemma ReadLoop_cancel_witness :
  ReadLoop utcDate arm sampleInverter
    ([crcTick] ++ CtxDone canceled None :: [normalTick]) normalVars =
    (trace (ReadLoop utcDate arm sampleInverter [crcTick] normalVars) ++
       [(normalVars, ELog Info "Context canceled, stop reading from inverter" []);
        (normalVars, EClose)],
     normalVars, Some (Ok canceled)).
Proof.
  apply (ReadLoop_cancel utcDate arm sampleInverter [crcTick] [normalTick]
           canceled None normalVars).
  reflexivity.
Defined.

Lemma ReadLoop_dark_witness :
  let r := ReadLoop utcDate arm sampleInverter (replicate 20 timeoutTick)
             (mkReadVars "waiting" false 0) in
  value r = None ∧
  lastInverterState (final r) = "waiting" ∧
  timeoutCnt (final r) = 0 ∧
  sleeps (effects (trace r)) = replicate 20 time_Minute ∧
  reconnects (effects (trace r)) = 0%nat ∧
  Forall (λ x, x.2 ≠ EClose) (trace r).
Proof.
  apply (ReadLoop_dark utcDate arm sampleInverter (replicate 20 timeoutTick)
           (mkReadVars "waiting" false 0)).
  - apply Forall_replicate. reflexivity.
  - reflexivity.
Defined.

Lemma ReadLoop_other_errors_witness :
  let r := ReadLoop utcDate arm sampleInverter (replicate 20 crcTick) normalVars in
  value r = None ∧
  lastInverterState (final r) = "normal" ∧
  timeoutCnt (final r) = 0 ∧
  sleeps (effects (trace r)) = [] ∧
  reconnects (effects (trace r)) = 0%nat.
Proof.
  apply (ReadLoop_other_errors utcDate arm sampleInverter (replicate 20 crcTick)
           normalVars).
  apply Forall_replicate. discriminate.
Defined.

Lemma Read_invariant_witness :
  let r := Read utcDate arm sampleInverter
             (replicate 12 timeoutTick ++ [normalTick; crcTick]) normalVars in
  lastInverterState (final r) ∈ labels ∧
  0 <= timeoutCnt (final r) <= 14.
Proof.
  apply (Read_invariant utcDate arm sampleInverter
           (replicate 12 timeoutTick ++ [normalTick; crcTick]) normalVars).
  reflexivity.
Defined.

(** ** The consumer loop as a whole *)

Lemma mainLoop_msg_cons (topic : string) (m : Stats) (now : string)
    (evs : list MainEvent) (l0 : string) :
  let r1 := mainIter topic (Msg m now) l0 in
  let r2 := mainLoop topic evs (State m) in
  mainLoop topic (Msg m now :: evs) l0 = (trace r1 ++ trace r2, final r2, value r2).
Proof.
  destruct (mainIter_msg topic l0 m now) as (Hv & Hf & _).
  cbv zeta. cbn [mainLoop]. unfold bind.
  destruct (mainIter topic (Msg m now) l0) as [[t1 s1] n1].
  cbn [value final fst snd] in Hv, Hf. subst n1 s1.
  by destruct (mainLoop topic evs (State m)) as [[t2 s2] n2].
Qed.

Lemma mainIter_data (topic : string) (l0 : string) (m : Stats) (now : string) :
  dataPublished (effects (trace (mainIter topic (Msg m now) l0)))
    = [(topic +:+ "/data", m, true)].
Proof.
  unfold mainIter, json_Marshal, Publish, bind, get, put, emit, ret.
  cbv beta iota zeta. by destruct (bool_decide (l0 ≠ State m)).
Qed.

(** X16: every record that [main] receives is published once on the
    data topic, retained, and the publications are in the order of the
    records. *)
Theorem mainRun_publishes_all (topic : string) (msgs : list (Stats * string)) :
  dataPublished (effects (trace (mainRun topic (received msgs))))
    = map (λ m, (topic +:+ "/data", m.1, true)) msgs.
Proof.
  unfold mainRun. generalize (index InverterStateCodes 0).
  induction msgs as [|[m now] msgs IH]; intros l0; [done|].
  change (received ((m, now) :: msgs)) with (Msg m now :: received msgs).
  rewrite mainLoop_msg_cons. cbn [trace fst map].
  unfold effects, dataPublished in *.
  rewrite fmap_app, omap_app, IH.
  pose proof (mainIter_data topic l0 m now) as Hd.
  unfold effects, dataPublished in Hd. by rewrite Hd.
Qed.


(** X18: a signal ends the loop of [main]: after the records before
    it, the signal is logged and nothing that arrives later is handled
    or published. *)
Theorem mainLoop_signal (topic : string) (msgs : list (Stats * string))
    (sig : string) (rest : list MainEvent) (l0 : string) :
  let r := mainLoop topic (received msgs) l0 in
  mainLoop topic (received msgs ++ Sig sig :: rest) l0 =
    (trace r ++ [(final r, ELog Info "Stopping! Got signal %v" [AStr sig])],
     final r, tt).
Proof.
  cbv zeta.
  destruct (mainLoop_received_app topic msgs (Sig sig :: rest) l0) as [Hf ->].
  by rewrite <- Hf.
Qed.

(** ** The thread of [main] *)

Lemma started_app (t1 t2 : list ProcEffect) :
  started (t1 ++ t2) = started t1 || started t2.
Proof. apply existsb_app. Qed.

Lemma started_PEff (es : list Effect) : started (map PEff es) = false.
Proof. by induction es. Qed.

Lemma released_app (t1 t2 : list ProcEffect) :
  released (t1 ++ t2) = released t1 || released t2.
Proof. apply existsb_app. Qed.

Lemma released_PEff {S} (t : list (S * Effect)) :
  Forall (λ x, x.2 ≠ EClose) t → released (map PEff (effects t)) = false.
Proof.
  unfold released, effects.
  induction 1 as [|[s e] t He _ IH]; [done|].
  cbn [fmap list_fmap map existsb snd] in *. rewrite IH. by destruct e.
Qed.

Lemma pbind_inl {A B} (m : P A) (k : A → P B) (t : list ProcEffect) (x : A) :
  m = (t, inl x) → pbind m k = (t ++ (k x).1, (k x).2).
Proof. by intros ->. Qed.

Lemma pbind_inr {A B} (m : P A) (k : A → P B) (t : list ProcEffect) (x : Exit) :
  m = (t, inr x) → pbind m k = (t, inr x).
Proof. by intros ->. Qed.

Lemma started_inl {A B} (m : P A) (k : A → P B) (t : list ProcEffect) (x : A) :
  m = (t, inl x) → started (pbind m k).1 = started t || started (k x).1.
Proof. intros ->. apply started_app. Qed.

Lemma started_inr {A B} (m : P A) (k : A → P B) (t : list ProcEffect) (x : Exit) :
  m = (t, inr x) → started (pbind m k).1 = started t.
Proof. by intros ->. Qed.

Lemma Connect_value (a : Arch) (i : Inverter) {S} (newAns openAns : option error) (s : S) :
  value (Connect a i newAns openAns s) =
    match newAns with Some err => Some err | None => openAns end.
Proof. by destruct newAns as [e|]; [|destruct openAns as [e|]]. Qed.

Section MainFacts.
Variable Date : Z → Z → Z → Z → Z → Z → Z → Time.
Variable a : Arch.

Ltac go_on :=
  erewrite started_inl by reflexivity;
  cbn [started existsb orb]; cbv beta iota.

Ltac stop :=
  erewrite started_inr by reflexivity; cbn [started existsb orb].

(** X19: [main] starts the reader goroutine exactly when the whole
    startup went well: a path on the command line, a config file that
    reads, parses and names a topic, a log level that parses, a broker
    and an inverter that connect, and a first clock check that does not
    panic.  A first clock check that fails with an error does not keep
    the reader from starting. *)
Theorem main_starts_reader_iff (w : World) :
  started (main Date a w).1 = true ↔ startupOk w.
Proof.
  destruct w as [args rf um la ls mc na oa rd now wr evs].
  unfold startupOk, main. cbn [osArgs readFile unmarshal levelAns levelString
    mqttConnect newAns openAns clockRd clockNow clockWr events].
  destruct args as [|a0 [|a1 args]].
  - stop. split; [done|]. intros (H & _). cbn in H. lia.
  - stop. split; [done|]. intros (H & _). cbn in H. lia.
  - go_on. go_on.
    destruct rf as [data|err].
    2:{ go_on. stop. split; [done|]. by intros (_ & (d & c & [=] & _) & _). }
    destruct um as [cfg|err].
    2:{ stop. split; [done|]. by intros (_ & (d & c & _ & [=] & _) & _). }
    unfold readConfig at 1. cbn [readFile unmarshal].
    case_bool_decide as Htopic.
    { go_on. stop. split; [done|].
      intros (_ & (d & c & _ & [= <-] & Hne) & _). done. }
    go_on. go_on.
    unfold logger.Setup at 1, logger.parseLevel. cbn [levelAns levelString].
    destruct la as [lvl|err].
    2:{ go_on. stop. split; [done|]. by intros (_ & _ & (l & [=]) & _). }
    go_on. go_on. go_on. go_on.
    unfold mqtt.Init at 1. cbn [mqttConnect].
    destruct mc as [err|].
    { go_on. stop. split; [done|]. by intros (_ & _ & _ & [=] & _). }
    go_on. go_on. go_on.
    rewrite started_PEff. cbn [orb]. cbn [snd]. rewrite Connect_value.
    destruct na as [err|].
    { stop. split; [done|]. by intros (_ & _ & _ & _ & [=] & _). }
    destruct oa as [err|].
    { stop. split; [done|]. by intros (_ & _ & _ & _ & _ & [=] & _). }
    go_on. go_on.
    rewrite started_PEff. cbn [orb]. cbn [snd].
    pose proof (CheckSetTime_panic_iff Date rd now wr tt) as Hp.
    destruct (value (CheckSetTime Date rd now wr ())) as [[]|err|].
    + go_on. go_on. split; [intros _|done].
      split_and!; try done; [cbn; lia|eauto|eauto|].
      intros d Hd. destruct (decide (6 <= length d)%nat); [done|].
      assert (∃ data, rd = inl data ∧ (length data < 6)%nat) as Hex
        by (exists d; split; [done|lia]).
      apply Hp in Hex. discriminate Hex.
    + go_on. go_on. split; [intros _|done].
      split_and!; try done; [cbn; lia|eauto|eauto|].
      intros d Hd. destruct (decide (6 <= length d)%nat); [done|].
      assert (∃ data, rd = inl data ∧ (length data < 6)%nat) as Hex
        by (exists d; split; [done|lia]).
      apply Hp in Hex. discriminate Hex.
    + stop. split; [done|]. intros (_ & _ & _ & _ & _ & _ & H).
      destruct Hp as [(d & -> & Hd) _]; [done|]. specialize (H d eq_refl). lia.
Qed.

Lemma mainFor_signal (topic : string) (msgs : list (Stats * string))
    (sig : string) (rest : list MainEvent) (l0 : string) :
  let r := mainLoop topic (received msgs) l0 in
  mainFor topic (received msgs ++ Sig sig :: rest) l0 =
    (trace r ++ [(final r, ELog Info "Stopping! Got signal %v" [AStr sig])],
     final r, true).
Proof.
  revert l0. induction msgs as [|[m now] msgs IH]; intros l0; [done|].
  cbv zeta.
  change (received ((m, now) :: msgs) ++ Sig sig :: rest)
    with (Msg m now :: (received msgs ++ Sig sig :: rest)).
  change (received ((m, now) :: msgs)) with (Msg m now :: received msgs).
  rewrite mainLoop_msg_cons. cbn [mainFor]. unfold bind.
  destruct (mainIter_msg topic l0 m now) as (Hv & Hf & _).
  destruct (mainIter topic (Msg m now) l0) as [[t1 s1] n1].
  cbn [value final fst snd] in Hv, Hf. subst n1 s1.
  rewrite IH. cbn [trace final value fst snd]. by rewrite app_assoc.
Qed.

Lemma shutsDown_inl {A} (sig : string) (m : P A) (k : A → P unit)
    (t : list ProcEffect) (x : A) :
  m = (t, inl x) → shutsDown sig (k x) → shutsDown sig (pbind m k).
Proof.
  intros -> [He (pre & Ht)]. unfold shutsDown, pbind. cbn [fst snd].
  split; [done|]. exists (t ++ pre). by rewrite Ht, app_assoc.
Qed.

(** X20: after a good startup, a signal makes [main] log it, run its
    three deferred calls, the last deferred first, that is cancel the
    context, close the transport and disconnect from the broker with a
    quiesce time of 250 ms, and end with status 0; what arrives after
    the signal is not handled. *)
Theorem main_shuts_down (w : World) (msgs : list (Stats * string))
    (sig : string) (rest : list MainEvent) :
  startupOk w →
  events w = received msgs ++ Sig sig :: rest →
  shutsDown sig (main Date a w).
Proof.
  destruct w as [args rf um la ls mc na oa rd now wr evs].
  unfold startupOk. cbn [osArgs readFile unmarshal levelAns levelString
    mqttConnect newAns openAns clockRd clockNow clockWr events].
  intros (Hargs & (data & cfg & -> & -> & Htopic) & (lvl & ->) & -> & -> & -> & Hrd) ->.
  destruct args as [|a0 [|a1 args]]; cbn in Hargs; try lia.
  unfold main. cbn [osArgs readFile unmarshal levelAns levelString
    mqttConnect newAns openAns clockRd clockNow clockWr events].
  eapply shutsDown_inl; [reflexivity|]. cbv beta iota.
  eapply shutsDown_inl; [reflexivity|]. cbv beta iota.
  eapply shutsDown_inl.
  { unfold readConfig. cbn [readFile unmarshal].
    rewrite (bool_decide_eq_false_2 _ Htopic). reflexivity. }
  cbv beta iota.
  do 8 (eapply shutsDown_inl; [reflexivity|]; cbv beta iota).
  cbn [snd]. rewrite Connect_value.
  do 2 (eapply shutsDown_inl; [reflexivity|]; cbv beta iota).
  cbn [snd].
  pose proof (CheckSetTime_panic_iff Date rd now wr tt) as Hp.
  assert (value (CheckSetTime Date rd now wr ()) ≠ Panic) as Hnp.
  { intros H. apply Hp in H as (d & -> & Hd). specialize (Hrd d eq_refl). lia. }
  assert (∃ t, match value (CheckSetTime Date rd now wr ()) with
               | Ok _ => pret ()
               | Err err =>
                   pemit (PEff (ELog Warn
                                  "Failed to CheckSetTime on inverter upon start: %v"
                                  [AErr err]))
               | Panic =>
                   pbind (pemit (PEff EClose))
                     (λ _, pbind mqtt.Disconnect (λ _, pend Panicked))
               end = (t, inl ())) as [t Ht].
  { destruct (value (CheckSetTime Date rd now wr ())) as [[]|err|]; [eauto..|done]. }
  eapply shutsDown_inl; [exact Ht|]. cbv beta iota.
  eapply shutsDown_inl; [reflexivity|]. cbv beta iota.
  unfold shutsDown, pbind, call, value, final, trace, effects.
  rewrite mainFor_signal. cbn [fst snd].
  split; [reflexivity|].
  rewrite fmap_app, map_app. cbn [fmap list_fmap map snd pemit fst app mqtt.Disconnect pend].
  eexists. rewrite <- app_assoc. reflexivity.
Qed.

Lemma exitsUnreleased_inl {A} (m : P A) (k : A → P unit)
    (t : list ProcEffect) (x : A) :
  m = (t, inl x) → released t = false → exitsUnreleased (k x) →
  exitsUnreleased (pbind m k).
Proof.
  intros -> Ht Hk. unfold exitsUnreleased, pbind in *. cbn [fst snd].
  intros He. by rewrite released_app, Ht, (Hk He).
Qed.

Lemma exitsUnreleased_inr {A} (m : P A) (k : A → P unit)
    (t : list ProcEffect) (x : Exit) :
  m = (t, inr x) → released t = false → exitsUnreleased (pbind m k).
Proof. by intros -> Ht _. Qed.

Lemma exit_inl {A B} (m : P A) (k : A → P B) (t : list ProcEffect) (x : A) :
  m = (t, inl x) → (pbind m k).2 = (k x).2.
Proof. by intros ->. Qed.

Lemma Connect_no_close {S} (i : Inverter) (newAns openAns : option error) (s : S) :
  Forall (λ x, x.2 ≠ EClose) (trace (Connect a i newAns openAns s)).
Proof.
  eapply Forall_impl; [apply Connect_effects|].
  intros [s' e] [_ He]. cbn [snd] in *. by destruct e.
Qed.

Lemma CheckSetTime_no_close {S} (rd : list Z + error) (now : Time)
    (wr : Z → Z → option error) (s : S) :
  Forall (λ x, x.2 ≠ EClose) (trace (CheckSetTime Date rd now wr s)).
Proof.
  destruct (CheckSetTime_isClock Date rd now wr s) as [H _].
  eapply Forall_impl; [exact H|].
  intros [s' e] He. cbn [snd] in *. by destruct e.
Qed.

Ltac pass := eapply exitsUnreleased_inl; [reflexivity | reflexivity |]; cbv beta iota.
Ltac ends_here := eapply exitsUnreleased_inr; [reflexivity | reflexivity].

(** X21: when [main] ends through [log.Fatal], with status 1, no
    deferred call has run and nothing has been released: the context
    is not cancelled, the transport is not closed and the broker is not
    left, even when the connection to the broker had been made. *)
Theorem main_exit_1_unreleased (w : World) :
  (main Date a w).2 = inr (Exited 1) → released (main Date a w).1 = false.
Proof.
  change (exitsUnreleased (main Date a w)).
  destruct w as [args rf um la ls mc na oa rd now wr evs].
  unfold main. cbn [osArgs readFile unmarshal levelAns levelString
    mqttConnect newAns openAns clockRd clockNow clockWr events].
  destruct args as [|a0 [|a1 args]]; [ends_here | ends_here |].
  pass. pass.
  unfold readConfig at 1. cbn [readFile unmarshal].
  destruct rf as [data|err]; [|pass; ends_here].
  destruct um as [cfg|err]; [|ends_here].
  case_bool_decide as Htopic; [pass; ends_here|].
  pass. pass.
  unfold logger.Setup at 1, logger.parseLevel. cbn [levelAns levelString].
  destruct la as [lvl|err]; [|pass; ends_here].
  pass. pass. pass. pass.
  unfold mqtt.Init at 1. cbn [mqttConnect].
  destruct mc as [err|]; [pass; ends_here|].
  pass. pass.
  eapply exitsUnreleased_inl; [reflexivity | apply released_PEff, Connect_no_close |].
  cbv beta iota. cbn [snd].
  destruct (value (Connect _ _ _ _ _)); [ends_here|].
  pass.
  eapply exitsUnreleased_inl;
    [reflexivity | apply released_PEff, CheckSetTime_no_close |].
  cbv beta iota. cbn [snd].
  intros He. exfalso. revert He.
  destruct (value (CheckSetTime Date rd now wr ())) as [[]|err|].
  - erewrite !exit_inl by reflexivity. cbv beta iota. cbn [snd].
    by destruct (value _).
  - erewrite !exit_inl by reflexivity. cbv beta iota. cbn [snd].
    by destruct (value _).
  - done.
Qed.

End MainFacts.

Lemma sampleWorld_ok : startupOk sampleWorld.
Proof.
  unfold startupOk, sampleWorld.
  cbn [osArgs readFile unmarshal levelAns mqttConnect newAns openAns clockRd].
  split; [cbn; lia|]. split; [by exists "...", sampleCfg|].
  split; [by exists 0|]. split; [done|]. split; [done|]. split; [done|].
  intros d [= <-]. cbn. lia.
Qed.

Lemma main_starts_reader_iff_witness :
  started (main utcDate arm sampleWorld).1 = true ∧
  started (main utcDate arm portBusyWorld).1 = false.
Proof.
  split.
  - apply main_starts_reader_iff. exact sampleWorld_ok.
  - apply not_true_is_false. intros H.
    apply main_starts_reader_iff in H as (_ & _ & _ & _ & _ & Ho & _).
    discriminate Ho.
Defined.

Lemma main_shuts_down_witness :
  shutsDown "interrupt" (main utcDate arm sampleWorld).
Proof.
  apply (main_shuts_down utcDate arm sampleWorld
           [(normalStats, "2024-03-15 10:30:00")] "interrupt"
           [Msg waitingStats "2024-03-15 10:30:02"]).
  - exact sampleWorld_ok.
  - reflexivity.
Defined.

Lemma main_exit_1_unreleased_witness :
  (main utcDate arm portBusyWorld).2 = inr (Exited 1) ∧
  In (PMqttConnect "tcp://broker:1883" "user" "secret" "growatt" (60 * time_Second))
    (main utcDate arm portBusyWorld).1 ∧
  released (main utcDate arm portBusyWorld).1 = false.
Proof.
  split; [reflexivity|]. split; [vm_compute; tauto|].
  apply main_exit_1_unreleased. reflexivity.
Defined.
